(** * Common Crawl pipeline: batcher, queue channel, worker, object store

    A shallow embedding of the Python sources
    [batcher.py], [rabbitmq.py], [worker.py] and [ObjectStore.py].

    Python statements that mutate counters, the queue or the bucket become
    functions of an explicit state; a raised exception is an [outcome] that
    keeps the state reached so far, as Python does.  Library calls the
    sources only invoke ([json.loads], the downloader, the WARC iterator,
    trafilatura, the tokenizer, pika) are Section variables. *)

From Stdlib Require Import String Ascii List ZArith Lia Bool.
From Stdlib Require Import DecimalString DecimalPos DecimalZ DecimalNat.
From stdpp Require Import base option list strings gmap.
Import ListNotations.
Local Open Scope string_scope.
Local Open Scope list_scope.

(** ** Python values, exceptions and the operators the sources use *)

Module Py.

(** The pika exception classes named in [rabbitmq.py].  [AMQPError] is the
    root class: it stands for itself and for every subclass the source does
    not name. *)
Inductive pika_exn : Type :=
| AuthenticationError
| ProbableAuthenticationError
| ProbableAccessDeniedError
| AMQPConnectionError
| ConnectionClosed
| ConnectionClosedByBroker
| ConnectionClosedByClient
| ConnectionWrongStateError
| StreamLostError
| AMQPHeartbeatTimeout
| ChannelClosed
| ChannelClosedByBroker
| ChannelClosedByClient
| ChannelWrongStateError
| UnroutableError
| NackError
| AMQPError.

(** Subclasses of [Exception].  [KeyboardInterrupt] and [SystemExit], which
    [except Exception] lets through, are process signals and are not part of
    the model. *)
Inductive exn : Type :=
| KeyError (key : string)
| TypeError
| IndexError
| ValueError
| JSONDecodeError
| UnicodeDecodeError
| HTTPError
| RuntimeError (msg : string)
| Pika (e : pika_exn)
| OtherException (name : string).

Inductive outcome (A : Type) : Type :=
| Ret (a : A)
| Raise (e : exn).
Arguments Ret {A} a.
Arguments Raise {A} e.

(** What [json.loads] returns.  A [dict] keeps insertion order and is read
    by first match. *)
#[warnings="-register-all"]
Inductive json : Type :=
| JNull
| JBool (b : bool)
| JInt (n : Z)
| JFloat (literal : string)
| JStr (s : string)
| JArr (items : list json)
| JObj (fields : list (string * json)).

Definition bytes : Type := list Byte.byte.

(** [str.split(sep)] for a one-character separator: every occurrence cuts,
    so consecutive separators give empty fields and the result is never
    empty. *)
Fixpoint split (sep : ascii) (s : string) : list string :=
  match s with
  | EmptyString => [EmptyString]
  | String c rest =>
      if Ascii.eqb c sep then EmptyString :: split sep rest
      else match split sep rest with
           | [] => [String c EmptyString]
           | w :: ws => String c w :: ws
           end
  end.

(** ["".join(xs)] *)
Definition join (xs : list string) : string := String.concat "" xs.

(** [needle in haystack] on [str]. *)
Fixpoint substring_of (needle hay : string) : bool :=
  if String.prefix needle hay then true
  else match hay with
       | EmptyString => false
       | String _ rest => substring_of needle rest
       end.

Fixpoint assoc (k : string) (fields : list (string * json)) : option json :=
  match fields with
  | [] => None
  | (k', v) :: rest => if String.eqb k k' then Some v else assoc k rest
  end.

(** [v == s] for a [str] literal [s]: only a [str] equals a [str]. *)
Definition eq_str (v : json) (s : string) : bool :=
  match v with
  | JStr s' => String.eqb s' s
  | _ => false
  end.

(** [s in v] for a [str] literal [s]: substring on a [str], element
    equality on a [list], key membership on a [dict]; the other JSON values
    are not iterable. *)
Definition contains (s : string) (v : json) : outcome bool :=
  match v with
  | JStr hay => Ret (substring_of s hay)
  | JArr items => Ret (existsb (fun x => eq_str x s) items)
  | JObj fields => Ret (match assoc s fields with Some _ => true | None => false end)
  | JNull | JBool _ | JInt _ | JFloat _ => Raise TypeError
  end.

(** [v[s]] for a [str] literal [s]. *)
Definition getitem (v : json) (s : string) : outcome json :=
  match v with
  | JObj fields =>
      match assoc s fields with
      | Some x => Ret x
      | None => Raise (KeyError s)
      end
  | _ => Raise TypeError
  end.

(** [xs[i]] on a list. *)
Definition index {A : Type} (xs : list A) (i : nat) : outcome A :=
  match nth_error xs i with
  | Some x => Ret x
  | None => Raise IndexError
  end.

(** The truth value of a list: [if xs:]. *)
Definition truthy {A : Type} (xs : list A) : bool :=
  match xs with
  | [] => false
  | _ :: _ => true
  end.

(** [len(v)] and [for x in v] on a decoded JSON value. *)
Fixpoint chars (s : string) : list json :=
  match s with
  | EmptyString => []
  | String c rest => JStr (String c EmptyString) :: chars rest
  end.

Definition iter (v : json) : outcome (list json) :=
  match v with
  | JArr items => Ret items
  | JObj fields => Ret (map (fun kv => JStr (fst kv)) fields)
  | JStr s => Ret (chars s)
  | JNull | JBool _ | JInt _ | JFloat _ => Raise TypeError
  end.

Definition len (v : json) : outcome nat :=
  match iter v with
  | Ret xs => Ret (length xs)
  | Raise e => Raise e
  end.

(** *** Statements with effects

    A computation takes the state and returns its outcome with the state it
    leaves: a [Raise] keeps every effect made before it. *)
Definition M (S A : Type) : Type := S -> outcome A * S.

Definition ret {S A : Type} (a : A) : M S A := fun s => (Ret a, s).
Definition raise {S A : Type} (e : exn) : M S A := fun s => (Raise e, s).
Definition lift {S A : Type} (o : outcome A) : M S A := fun s => (o, s).
Definition modify {S : Type} (f : S -> S) : M S unit := fun s => (Ret tt, f s).

Definition bind {S A B : Type} (m : M S A) (k : A -> M S B) : M S B :=
  fun s =>
    match m s with
    | (Ret a, s') => k a s'
    | (Raise e, s') => (Raise e, s')
    end.

(** [try: m  except Exception as e: h e] *)
Definition try_except {S A : Type} (m : M S A) (h : exn -> M S A) : M S A :=
  fun s =>
    match m s with
    | (Ret a, s') => (Ret a, s')
    | (Raise e, s') => h e s'
    end.

(** [for x in xs: body x acc], threading the loop-carried value. *)
Fixpoint for_each {S A X : Type} (body : X -> A -> M S A) (xs : list X) (acc : A) : M S A :=
  match xs with
  | [] => ret acc
  | x :: rest => bind (body x acc) (for_each body rest)
  end.

End Py.

Import Py.

Declare Scope py_scope.
Delimit Scope py_scope with py.
Notation "x <~ y ; z" := (Py.bind y (fun x => z))
  (at level 20, y at level 100, z at level 200, only parsing) : py_scope.
Notation "y ;; z" := (Py.bind y (fun _ => z))
  (at level 100, z at level 200, only parsing, right associativity) : py_scope.

Local Open Scope py_scope.

(** ** batcher.py *)

Module Batcher.

Definition BATCH_SIZE : Z := 50.

(** The four Prometheus counters of the module and the queue: [published]
    lists, oldest first, the bodies [channel.basic_publish] accepted. *)
Record state : Type := mkState {
  published : list (list json);
  batch_counter : nat;
  batcher_docs_seen : nat;
  batcher_docs_filtered : nat;
  batcher_docs_sent : nat
}.

Definition init : state := mkState [] 0 0 0 0.

Definition inc_batch_counter (st : state) : state :=
  mkState (published st) (S (batch_counter st)) (batcher_docs_seen st)
          (batcher_docs_filtered st) (batcher_docs_sent st).
Definition inc_docs_seen (st : state) : state :=
  mkState (published st) (batch_counter st) (S (batcher_docs_seen st))
          (batcher_docs_filtered st) (batcher_docs_sent st).
Definition inc_docs_filtered (st : state) : state :=
  mkState (published st) (batch_counter st) (batcher_docs_seen st)
          (S (batcher_docs_filtered st)) (batcher_docs_sent st).
Definition inc_docs_sent (n : nat) (st : state) : state :=
  mkState (published st) (batch_counter st) (batcher_docs_seen st)
          (batcher_docs_filtered st) (batcher_docs_sent st + n).
Definition enqueue (body : list json) (st : state) : state :=
  mkState (published st ++ [body]) (batch_counter st) (batcher_docs_seen st)
          (batcher_docs_filtered st) (batcher_docs_sent st).

(** One read of the metadata mapping by the acceptance test. *)
Inductive access : Type :=
| Contains (key : string)
| GetItem (key : string).

(** Line 68, with the reads of [metadata] it performs, in order:
    ["languages" in metadata and "eng" in metadata["languages"]
      and metadata["status"] == "200"]. *)
Definition accept_traced (metadata : json) : outcome bool * list access :=
  match contains "languages" metadata with
  | Raise e => (Raise e, [Contains "languages"])
  | Ret false => (Ret false, [Contains "languages"])
  | Ret true =>
      match getitem metadata "languages" with
      | Raise e => (Raise e, [Contains "languages"; GetItem "languages"])
      | Ret langs =>
          match contains "eng" langs with
          | Raise e => (Raise e, [Contains "languages"; GetItem "languages"])
          | Ret false => (Ret false, [Contains "languages"; GetItem "languages"])
          | Ret true =>
              match getitem metadata "status" with
              | Raise e =>
                  (Raise e, [Contains "languages"; GetItem "languages"; GetItem "status"])
              | Ret status =>
                  (Ret (eq_str status "200"),
                   [Contains "languages"; GetItem "languages"; GetItem "status"])
              end
          end
      end
  end.

Definition accept (metadata : json) : outcome bool := fst (accept_traced metadata).

(** The acceptance condition as the spec words it: [status == "200"] and
    ["eng"] in [languages]. *)
Definition qualifies (metadata : json) : bool :=
  match metadata with
  | JObj fields =>
      match assoc "status" fields, assoc "languages" fields with
      | Some status, Some languages =>
          eq_str status "200" &&
          match contains "eng" languages with
          | Ret true => true
          | _ => false
          end
      | _, _ => false
      end
  | _ => false
  end.

Section Collaborators.

(** [json.loads] *)
Variable json_loads : string -> outcome json.
(** [int(s)] on a field of an index row *)
Variable int_of_str : string -> outcome Z.
(** [downloader.download_and_unzip(url, start, length)] *)
Variable download_and_unzip : string -> Z -> Z -> outcome bytes.
(** [bytes.decode("utf-8")] *)
Variable decode_utf8 : bytes -> outcome string.
(** [channel.basic_publish(exchange="", routing_key=QUEUE_NAME, body=...)]:
    given the bodies accepted so far and the new one, the exception it
    raises, if any.  The body is the value handed to [json.dumps]. *)
Variable basic_publish : list (list json) -> list json -> option exn.

Definition publish_batch (batch : list json) : M state unit :=
  fun st =>
    match basic_publish (published st) batch with
    | Some e => (Raise e, st)
    | None => (Ret tt, inc_batch_counter (enqueue batch st))
    end.

(** Lines 58-60. *)
Definition fetch (cdx_chunk : list string) : outcome string :=
  match index cdx_chunk 1 with
  | Raise e => Raise e
  | Ret url =>
      match index cdx_chunk 2 with
      | Raise e => Raise e
      | Ret f2 =>
          match int_of_str f2 with
          | Raise e => Raise e
          | Ret start =>
              match index cdx_chunk 3 with
              | Raise e => Raise e
              | Ret f3 =>
                  match int_of_str f3 with
                  | Raise e => Raise e
                  | Ret length =>
                      match download_and_unzip url start length with
                      | Raise e => Raise e
                      | Ret raw => decode_utf8 raw
                      end
                  end
              end
          end
      end
  end.

(** The dict appended at lines 70-72. *)
Definition record (surt_url timestamp : string) (metadata : json) : json :=
  JObj [("surt_url", JStr surt_url); ("timestamp", JStr timestamp); ("metadata", metadata)].

(** Lines 74-77: the size check that closes the body of the line loop. *)
Definition flush_if_full (batch_size : Z) (found_urls : list json) : M state (list json) :=
  if (Z.of_nat (length found_urls) >=? batch_size)%Z then
    publish_batch found_urls ;;
    modify (inc_docs_sent (length found_urls)) ;;
    ret []
  else ret found_urls.

(** Lines 63-77: one round of [for line in data.split("\n")]; the value
    carried from round to round is [found_urls]. *)
Definition process_line (batch_size : Z) (line : string) (found_urls : list json)
  : M state (list json) :=
  if String.eqb line "" then ret found_urls
  else
    modify inc_docs_seen ;;
    let values := split " " line in
    metadata <~ lift (json_loads (join (skipn 2 values))) ;
    ok <~ lift (accept metadata) ;
    found_urls' <~ (if ok : bool then
                      modify inc_docs_filtered ;;
                      surt_url <~ lift (index values 0) ;
                      timestamp <~ lift (index values 1) ;
                      ret (found_urls ++ [record surt_url timestamp metadata])
                    else ret found_urls) ;
    flush_if_full batch_size found_urls'.

(** Lines 57-77: one round of [for cdx_chunk in lines]. *)
Definition process_chunk (batch_size : Z) (cdx_chunk : list string) (found_urls : list json)
  : M state (list json) :=
  data <~ lift (fetch cdx_chunk) ;
  for_each (process_line batch_size) (split "010" data) found_urls.

(** Lines 79-86: the two conditionals that follow the loop. *)
Definition final_flush (found_urls : list json) : M state unit :=
  (if truthy found_urls then
     publish_batch found_urls ;;
     modify (inc_docs_sent (length found_urls))
   else ret tt) ;;
  (if (0 <? length found_urls)%nat then
     publish_batch found_urls ;;
     modify (inc_docs_sent (length found_urls))
   else ret tt).

(** [process_index(index, channel, downloader, batch_size)]; [lines] is
    [list(index)]. *)
Definition process_index (lines : list (list string)) (batch_size : Z) : M state unit :=
  found_urls <~ for_each (process_chunk batch_size) lines [] ;
  final_flush found_urls.

(** *** What a run is expected to publish *)

(** The metadata text of a line (line 67) and the record built from the
    line (lines 70-72). *)
Definition metadata_text (line : string) : string := join (skipn 2 (split " " line)).
Definition record_of (line : string) (metadata : json) : json :=
  record (nth 0 (split " " line) "") (nth 1 (split " " line) "") metadata.

(** The records a line, and the range of an index row, hand to the batches
    of a run that gets past them. *)
Definition accepted_line (line : string) : list json :=
  if String.eqb line "" then []
  else match json_loads (metadata_text line) with
       | Ret metadata => if qualifies metadata then [record_of line metadata] else []
       | Raise _ => []
       end.

Definition accepted_chunk (cdx_chunk : list string) : list json :=
  match fetch cdx_chunk with
  | Ret data => flat_map accepted_line (split "010" data)
  | Raise _ => []
  end.

End Collaborators.

(** The loop invariant.  From pending batch [found] and state [st], a
    stretch of the loop that takes in the records [extra] and ends with
    pending batch [found'] and state [st'] has published the batches [new]:
    nothing is lost or reordered, and for a positive batch size every
    published batch is full and the pending one stays short of full. *)
Definition grows (bs : Z) (found : list json) (st : state) (extra : list json)
    (found' : list json) (st' : state) : Prop :=
  exists new,
    published st' = published st ++ new
    /\ concat new ++ found' = found ++ extra
    /\ ((0 < bs)%Z -> (Z.of_nat (length found) < bs)%Z ->
        Forall (fun batch => Z.of_nat (length batch) = bs) new
        /\ (Z.of_nat (length found') < bs)%Z).

(** The part of the invariant that survives an exception.  A stretch of the
    loop that ends in any way has published batches [new] made of records
    that were pending or taken in, and so is what it leaves pending. *)
Definition sound (found : list json) (st : state) (extra : list json)
    (res : outcome (list json) * state) : Prop :=
  exists new,
    published (snd res) = published st ++ new
    /\ (forall r, In r (concat new) -> In r (found ++ extra))
    /\ (forall found', fst res = Ret found' -> forall r, In r found' -> In r (found ++ extra)).

End Batcher.

(** ** rabbitmq.py *)

Module RabbitMQ.

Definition QUEUE_NAME : string := "batches".
Definition MAX_RETRIES : nat := 3.
Definition RETRY_DELAY : Z := 5.

(** The classes of the first [except] clause (lines 37-41). *)
Definition unrecoverable (e : exn) : bool :=
  match e with
  | Pika AuthenticationError
  | Pika ProbableAuthenticationError
  | Pika ProbableAccessDeniedError => true
  | _ => false
  end.

(** The classes of the second [except] clause (lines 45-60), of which
    [AMQPError] is the root of pika's exceptions.  The three
    authentication classes derive from [AMQPConnectionError], but the first
    clause has already taken them. *)
Definition recoverable (e : exn) : bool :=
  match e with
  | Pika _ => true
  | _ => false
  end.

Section Broker.

Variable Body : Type.
(** [self.channel.basic_publish(...)]: what the [n]-th call on the pika
    channel does with the body, counting from 0. *)
Variable pika_basic_publish : nat -> Body -> option exn.
(** [rabbitmq_channel()]: what the [n]-th reconnection does. *)
Variable rabbitmq_channel : nat -> option exn.

(** The broker as the publisher sees it: the bodies it took, the calls of
    [self.channel.basic_publish] made, the delays slept and the
    reconnections made after construction. *)
Record state : Type := mkState {
  delivered : list Body;
  attempts : nat;
  sleeps : list Z;
  connects : nat
}.

Definition init : state := mkState [] 0 [] 0.

Definition time_sleep (d : Z) : M state unit :=
  modify (fun st => mkState (delivered st) (attempts st) (sleeps st ++ [d]) (connects st)).

(** [self._connect()] *)
Definition _connect : M state unit :=
  fun st =>
    let st' := mkState (delivered st) (attempts st) (sleeps st) (S (connects st)) in
    match rabbitmq_channel (connects st) with
    | Some e => (Raise e, st')
    | None => (Ret tt, st')
    end.

(** How a round of the [while] loop ends. *)
Inductive signal : Type :=
| Next (attempt : nat)
| Return
| Raised (e : exn).

(** The handler shared by the second and third clauses:
    [attempt += 1; time.sleep(RETRY_DELAY); self._connect()]. *)
Definition retry (attempt : nat) : state -> signal * state :=
  fun st =>
    match (time_sleep RETRY_DELAY ;; _connect) st with
    | (Ret _, st') => (Next (S attempt), st')
    | (Raise e, st') => (Raised e, st')
    end.

(** Lines 29-70: the [try] statement. *)
Definition try_publish (body : Body) (attempt : nat) : state -> signal * state :=
  fun st =>
    let st1 := mkState (delivered st) (S (attempts st)) (sleeps st) (connects st) in
    match pika_basic_publish (attempts st) body with
    | None =>
        (Return, mkState (delivered st1 ++ [body]) (attempts st1) (sleeps st1) (connects st1))
    | Some e =>
        if unrecoverable e then (Raised e, st1)
        else if recoverable e then retry attempt st1
        else retry attempt st1
    end.

(** Lines 29-72: the body of the loop, that is the [try] statement and the
    [raise RuntimeError] that follows it at the same indentation. *)
Definition loop_body (body : Body) (attempt : nat) : state -> signal * state :=
  fun st =>
    match try_publish body attempt st with
    | (Next _, st') => (Raised (RuntimeError "Failed to publish after 3 retries"), st')
    | other => other
    end.

(** Lines 28-72: [while attempt < MAX_RETRIES]. *)
Fixpoint while_loop (fuel : nat) (body : Body) (attempt : nat) (st : state)
  : option (outcome unit * state) :=
  if (attempt <? MAX_RETRIES)%nat then
    match fuel with
    | O => None
    | S fuel' =>
        match loop_body body attempt st with
        | (Next attempt', st') => while_loop fuel' body attempt' st'
        | (Return, st') => Some (Ret tt, st')
        | (Raised e, st') => Some (Raise e, st')
        end
    end
  else Some (Ret tt, st).

(** [RabbitMQChannel.basic_publish(exchange, routing_key, body)] *)
Definition basic_publish (body : Body) (st : state) : option (outcome unit * state) :=
  while_loop MAX_RETRIES body 0 st.

End Broker.

Arguments delivered {Body} _.
Arguments attempts {Body} _.
Arguments sleeps {Body} _.
Arguments connects {Body} _.
Arguments mkState {Body} _ _ _ _.

End RabbitMQ.

(** ** ObjectStore.py *)

Module ObjectStore.

(** The fields of [datetime.datetime.utcnow()] that [save] reads. *)
Record date : Type := mkDate {
  year : nat;
  month : nat;
  day : nat
}.

(** The two clock readings of one call of [save]: the date of
    [datetime.datetime.utcnow()] and the integer [int(time.time() * 1000)].
    The floating-point product is not modelled; its integer part is given. *)
Record clock : Type := mkClock {
  utcnow_date : date;
  ticks : Z
}.

Definition decimal (n : nat) : string := NilZero.string_of_uint (Nat.to_uint n).

Fixpoint zeros (n : nat) : string :=
  match n with
  | O => ""
  | S n' => String "0" (zeros n')
  end.

(** [%0wd] *)
Definition pad (w n : nat) : string :=
  let s := decimal n in (zeros (w - String.length s) ++ s)%string.

(** [date.isoformat()] *)
Definition isoformat (d : date) : string :=
  (pad 4 (year d) ++ "-" ++ pad 2 (month d) ++ "-" ++ pad 2 (day d))%string.

(** [str(ticks)] *)
Definition str_of_int (z : Z) : string := NilZero.string_of_int (Z.to_int z).

(** Line 39: [key = f"{today}/{ticks}.jsonl"] *)
Definition key (c : clock) : string :=
  (isoformat (utcnow_date c) ++ "/" ++ str_of_int (ticks c) ++ ".jsonl")%string.

(** A bucket that takes every write. *)
Definition always (_ : gmap string string) (_ : string) : option exn := None.

Section Store.

Variable Doc : Type.
(** [json.dumps(doc, ensure_ascii=False)] *)
Variable json_dumps : Doc -> string.
(** The exception [s3.put_object] raises, if any, given the objects of the
    bucket and the key. *)
Variable put_object_error : gmap string string -> string -> option exn.

(** [s3.put_object(Bucket, Key, Body, ContentType)]: the object under [Key]
    is created, or replaced when the key exists. *)
Definition put_object (k body : string) : M (gmap string string) unit :=
  fun objects =>
    match put_object_error objects k with
    | Some e => (Raise e, objects)
    | None => (Ret tt, <[k := body]> objects)
    end.

(** Line 41: [line = json.dumps(doc, ensure_ascii=False) + "\n"] *)
Definition line_of (doc : Doc) : string := (json_dumps doc ++ String "010" "")%string.

(** [ObjectStore.save(doc)] under the clock readings [c]. *)
Definition save (c : clock) (doc : Doc) : M (gmap string string) unit :=
  let line := line_of doc in
  put_object (key c) line.

(** A store together with its clock: the [n]-th call of [save] reads
    [clock_at n]. *)
Variable clock_at : nat -> clock.

Record world : Type := mkWorld {
  objects : gmap string string;
  saves : nat
}.

Definition save_next (doc : Doc) : M world unit :=
  fun w =>
    match save (clock_at (saves w)) doc (objects w) with
    | (r, objs) => (r, mkWorld objs (S (saves w)))
    end.

End Store.

End ObjectStore.

(** ** worker.py *)

Module Worker.

Definition MIN_DOC_LENGTH : Z := 500.
Definition MAX_DOC_LENGTH : Z := 1000000.

(** [len(text)] *)
Definition text_len (text : string) : Z := Z.of_nat (String.length text).

(** [Worker._is_valid_doc(text)]; [None] is Python's [None]. *)
Definition _is_valid_doc (text : option string) : bool :=
  match text with
  | None => false
  | Some t => (MIN_DOC_LENGTH <=? text_len t)%Z && (text_len t <=? MAX_DOC_LENGTH)%Z
  end.

(** A record the WARC iterator yields. *)
Record warc_record : Type := mkRecord {
  rec_type : string;
  content : bytes
}.

Section Collaborators.

Variable Store : Type.
(** [self.store.save(doc)] *)
Variable store_save : json -> M Store unit.
(** [json.loads] *)
Variable json_loads : string -> outcome json.
(** [int(v)] on a decoded JSON value *)
Variable int_of : json -> outcome Z.
(** [self.downloader.download_and_unzip(url, start, length)] *)
Variable download_and_unzip : json -> Z -> Z -> outcome bytes.
(** [WARCIterator(io.BytesIO(data))]: the records it yields, in order, and
    the exception that ends the iteration when the framing is malformed. *)
Variable WARCIterator : bytes -> list warc_record * option exn.
(** [trafilatura.extract] *)
Variable extract : bytes -> outcome (option string).
(** [self.tokenizer.encode] *)
Variable encode : string -> outcome (list Z).

(** The worker's counters, its store, and the delivery tags acknowledged on
    the channel, oldest first. *)
Record state : Type := mkState {
  store : Store;
  acks : list Z;
  batch_counter : nat;
  docs_received : nat;
  docs_processed : nat;
  bytes_downloaded : nat;
  docs_filtered : nat
}.

Definition with_store (f : Store -> Store) (st : state) : state :=
  mkState (f (store st)) (acks st) (batch_counter st) (docs_received st)
          (docs_processed st) (bytes_downloaded st) (docs_filtered st).
Definition basic_ack (delivery_tag : Z) (st : state) : state :=
  mkState (store st) (acks st ++ [delivery_tag]) (batch_counter st) (docs_received st)
          (docs_processed st) (bytes_downloaded st) (docs_filtered st).
Definition inc_batch_counter (st : state) : state :=
  mkState (store st) (acks st) (S (batch_counter st)) (docs_received st)
          (docs_processed st) (bytes_downloaded st) (docs_filtered st).
Definition inc_docs_received (n : nat) (st : state) : state :=
  mkState (store st) (acks st) (batch_counter st) (docs_received st + n)
          (docs_processed st) (bytes_downloaded st) (docs_filtered st).
Definition inc_docs_processed (st : state) : state :=
  mkState (store st) (acks st) (batch_counter st) (docs_received st)
          (S (docs_processed st)) (bytes_downloaded st) (docs_filtered st).
Definition inc_bytes_downloaded (n : nat) (st : state) : state :=
  mkState (store st) (acks st) (batch_counter st) (docs_received st)
          (docs_processed st) (bytes_downloaded st + n) (docs_filtered st).
Definition inc_docs_filtered (st : state) : state :=
  mkState (store st) (acks st) (batch_counter st) (docs_received st)
          (docs_processed st) (bytes_downloaded st) (S (docs_filtered st)).

(** [self.store.save(doc)] inside the worker's state. *)
Definition save (doc : json) : M state unit :=
  fun st =>
    match store_save doc (store st) with
    | (r, s') => (r, with_store (fun _ => s') st)
    end.

(** Lines 52-68: one round of [for record in WARCIterator(...)]. *)
Definition process_record (item : json) (record : warc_record) : M state unit :=
  if String.eqb (rec_type record) "response" then
    _text <~ lift (extract (content record)) ;
    if negb (_is_valid_doc _text) then modify inc_docs_filtered
    else
      text <~ lift (match _text with Some t => Ret t | None => Raise TypeError end) ;
      tokens <~ lift (encode text) ;
      url <~ lift (getitem item "surt_url") ;
      timestamp <~ lift (getitem item "timestamp") ;
      metadata <~ lift (getitem item "metadata") ;
      let doc := JObj [("url", url); ("timestamp", timestamp); ("content", JStr text);
                       ("tokens", JArr (map JInt tokens)); ("metadata", metadata)] in
      save doc ;;
      modify inc_docs_processed
  else ret tt.

(** Lines 51-68: the loop over the records, ended by the iterator's
    exception when it has one. *)
Definition process_records (item : json) (it : list warc_record * option exn) : M state unit :=
  for_each (fun record (_ : unit) => process_record item record) (fst it) tt ;;
  match snd it with
  | Some e => raise e
  | None => ret tt
  end.

(** [item["metadata"][field]] *)
Definition metadata_field (item : json) (field : string) : outcome json :=
  match getitem item "metadata" with
  | Ret metadata => getitem metadata field
  | Raise e => Raise e
  end.

(** Lines 44-48: the call of the downloader with its three arguments,
    evaluated left to right. *)
Definition fetch (item : json) : outcome bytes :=
  match metadata_field item "filename" with
  | Raise e => Raise e
  | Ret filename =>
      match metadata_field item "offset" with
      | Raise e => Raise e
      | Ret offset =>
          match int_of offset with
          | Raise e => Raise e
          | Ret start =>
              match metadata_field item "length" with
              | Raise e => Raise e
              | Ret length_field =>
                  match int_of length_field with
                  | Raise e => Raise e
                  | Ret length => download_and_unzip filename start length
                  end
              end
          end
      end
  end.

(** Lines 44-68: the body of the [try] statement. *)
Definition try_item (item : json) : M state unit :=
  data <~ lift (fetch item) ;
  modify (inc_bytes_downloaded (List.length data)) ;;
  process_records item (WARCIterator data).

(** Lines 43-70: one round of [for item in batch]. *)
Definition process_item (item : json) : M state unit :=
  try_except (try_item item) (fun _ => ret tt).

(** [Worker.process_batch(ch, method, _properties, body)];
    [delivery_tag] is [method.delivery_tag]. *)
Definition process_batch (delivery_tag : Z) (body : string) : M state unit :=
  batch <~ lift (json_loads body) ;
  _printed <~ lift (len batch) ;
  received <~ lift (len batch) ;
  modify (inc_docs_received received) ;;
  items <~ lift (iter batch) ;
  for_each (fun item (_ : unit) => process_item item) items tt ;;
  modify inc_batch_counter ;;
  modify (basic_ack delivery_tag).

(** The state the items of a batch leave, each one run from the state its
    predecessor left, whether that one raised or not. *)
Definition after_items (items : list json) (st : state) : state :=
  fold_left (fun s item => snd (try_item item s)) items st.

(** Nothing an item does acknowledges a message. *)
Definition keeps_acks {A : Type} (m : M state A) : Prop :=
  forall s, acks (snd (m s)) = acks s.

End Collaborators.

End Worker.

(** ** Concrete collaborators for the worked examples

    Stand-ins in the manner of test doubles: each returns what the real
    collaborator returns on the few inputs the examples use. *)

Module Fixture.

Definition dq : string := String "034" "".
Definition quoted (s : string) : string := (dq ++ s ++ dq)%string.
Definition nl : string := String "010" "".

(** [int()] on a decimal numeral. *)
Definition int_of_str (s : string) : outcome Z :=
  match NilZero.int_of_string s with
  | Some d => Ret (Z.of_int d)
  | None => Raise ValueError
  end.

(** Metadata texts as they reach [json.loads], that is after line 67 has
    dropped the spaces of the line. *)
Definition text_eng_200 : string :=
  ("{" ++ quoted "status" ++ ":" ++ quoted "200" ++ ","
       ++ quoted "languages" ++ ":" ++ quoted "eng" ++ "}")%string.
Definition text_eng_404 : string :=
  ("{" ++ quoted "status" ++ ":" ++ quoted "404" ++ ","
       ++ quoted "languages" ++ ":" ++ quoted "eng" ++ "}")%string.
Definition text_fra_200 : string :=
  ("{" ++ quoted "status" ++ ":" ++ quoted "200" ++ ","
       ++ quoted "languages" ++ ":" ++ quoted "fra" ++ "}")%string.
Definition text_eng_fra_200 : string :=
  ("{" ++ quoted "status" ++ ":" ++ quoted "200" ++ ","
       ++ quoted "languages" ++ ":[" ++ quoted "eng" ++ "," ++ quoted "fra" ++ "]}")%string.
Definition text_no_languages : string :=
  ("{" ++ quoted "mime" ++ ":" ++ quoted "text/html" ++ "}")%string.
Definition text_eng_no_status : string :=
  ("{" ++ quoted "languages" ++ ":" ++ quoted "eng" ++ "}")%string.
(** An object cut short: not JSON. *)
Definition text_malformed : string :=
  ("{" ++ quoted "status" ++ ":")%string.

Definition md_eng_200 : json := JObj [("status", JStr "200"); ("languages", JStr "eng")].
Definition md_eng_404 : json := JObj [("status", JStr "404"); ("languages", JStr "eng")].
Definition md_fra_200 : json := JObj [("status", JStr "200"); ("languages", JStr "fra")].
Definition md_eng_fra_200 : json :=
  JObj [("status", JStr "200"); ("languages", JArr [JStr "eng"; JStr "fra"])].
Definition md_no_languages : json := JObj [("mime", JStr "text/html")].
Definition md_eng_no_status : json := JObj [("languages", JStr "eng")].

(** [json.loads] on the texts above; anything else is refused, as
    [text_malformed] is. *)
Definition json_loads (s : string) : outcome json :=
  if String.eqb s text_eng_200 then Ret md_eng_200
  else if String.eqb s text_eng_404 then Ret md_eng_404
  else if String.eqb s text_fra_200 then Ret md_fra_200
  else if String.eqb s text_eng_fra_200 then Ret md_eng_fra_200
  else if String.eqb s text_no_languages then Ret md_no_languages
  else if String.eqb s text_eng_no_status then Ret md_eng_no_status
  else Raise JSONDecodeError.

(** Index-metadata lines: SURT key, timestamp, metadata. *)
Definition line_of (surt_url text : string) : string :=
  (surt_url ++ " 20240722120756 " ++ text)%string.
Definition line_a : string := line_of "com,example)/a" text_eng_200.
Definition line_b : string := line_of "com,example)/b" text_eng_200.
Definition line_404 : string := line_of "com,example)/gone" text_eng_404.
Definition line_fra : string := line_of "fr,exemple)/" text_fra_200.
Definition line_malformed : string := line_of "com,example)/cut" text_malformed.

Definition record_a : json := Batcher.record "com,example)/a" "20240722120756" md_eng_200.
Definition record_b : json := Batcher.record "com,example)/b" "20240722120756" md_eng_200.

(** The first row of the index of [test_can_read_index]. *)
Definition row : list string :=
  ["0,100,22,165)/ 20240722120756"; "cdx-00000.gz"; "0"; "188224"; "1"].

(** A downloader that serves [data] for every range, already unzipped,
    and the decoding of ASCII bytes. *)
Definition serve (data : string) (_ : string) (_ _ : Z) : outcome bytes :=
  Ret (list_byte_of_string data).
Definition decode_utf8 (raw : bytes) : outcome string := Ret (string_of_list_byte raw).

(** A queue channel that accepts every body. *)
Definition accept_all (_ : list (list json)) (_ : list json) : option exn := None.

(** [process_index] on one index row whose range holds [data]. *)
Definition run_batcher (data : string) : outcome unit * Batcher.state :=
  Batcher.process_index json_loads int_of_str (serve data) decode_utf8 accept_all
    [row] Batcher.BATCH_SIZE Batcher.init.

(** The range of a row with three lines, the second of status 404, and one
    whose second line is cut short. *)
Definition three_lines : string := (line_a ++ nl ++ line_404 ++ nl ++ line_b ++ nl)%string.
Definition interrupted : string := (line_a ++ nl ++ line_malformed ++ nl ++ line_b)%string.

(** *** The queue channel *)

(** A broker whose connection is closed at every publish attempt, one that
    refuses the credentials, and a reconnection that always succeeds. *)
Definition always_closed (_ : nat) (_ : string) : option exn := Some (Pika ConnectionClosed).
Definition refuses_credentials (_ : nat) (_ : string) : option exn :=
  Some (Pika ProbableAuthenticationError).
Definition reconnects (_ : nat) : option exn := None.

Definition payload : string := "[]".

(** *** The object store *)

(** [json.dumps] with its default separators, for values whose strings
    need no escape. *)
Fixpoint dumps (v : json) : string :=
  match v with
  | JNull => "null"
  | JBool true => "true"
  | JBool false => "false"
  | JInt n => ObjectStore.str_of_int n
  | JFloat literal => literal
  | JStr s => quoted s
  | JArr items => "[" ++ String.concat ", " (map dumps items) ++ "]"
  | JObj fields =>
      "{" ++ String.concat ", "
               (map (fun kv => let '(k, x) := kv in quoted k ++ ": " ++ dumps x) fields)
          ++ "}"
  end%string.

Definition today : ObjectStore.date := ObjectStore.mkDate 2024 7 22.

(** Two readings of the clock within one millisecond of 22 July 2024. *)
Definition noon : ObjectStore.clock := ObjectStore.mkClock today 1721649600500.
Definition noon_again : ObjectStore.clock := ObjectStore.mkClock today 1721649600500.

(** A clock that advances 40 ms from one call of [save] to the next. *)
Definition clock_at (n : nat) : ObjectStore.clock :=
  ObjectStore.mkClock today (1721649600500 + 40 * Z.of_nat n).

Definition store_save : json -> M (ObjectStore.world) unit :=
  ObjectStore.save_next json dumps ObjectStore.always clock_at.

Definition empty_store : ObjectStore.world := ObjectStore.mkWorld ∅ 0.

(** *** The worker *)

Definition item (surt_url filename : string) : json :=
  JObj [("surt_url", JStr surt_url); ("timestamp", JStr "20240722120756");
        ("metadata", JObj [("status", JStr "200"); ("languages", JStr "eng");
                           ("filename", JStr filename); ("offset", JStr "1024");
                           ("length", JStr "2048")])].

Definition item_1 : json := item "com,example)/a" "crawl-data/a.warc.gz".
(** An item whose archive range cannot be fetched. *)
Definition item_2 : json := item "com,example)/b" "crawl-data/missing.warc.gz".
Definition item_3 : json := item "com,example)/c" "crawl-data/c.warc.gz".
(** An item whose archive range is not a WARC container. *)
Definition item_garbled : json := item "com,example)/g" "crawl-data/garbled.warc.gz".

Definition batch_body (items : list json) : string := dumps (JArr items).

(** [json.loads] on the two bodies of the examples. *)
Definition loads_body (s : string) : outcome json :=
  if String.eqb s (batch_body [item_1; item_2; item_3]) then Ret (JArr [item_1; item_2; item_3])
  else if String.eqb s (batch_body [item_1; item_garbled; item_3])
       then Ret (JArr [item_1; item_garbled; item_3])
  else Raise JSONDecodeError.

Definition int_of (v : json) : outcome Z :=
  match v with
  | JStr s => int_of_str s
  | JInt n => Ret n
  | _ => Raise TypeError
  end.

Definition garbled : bytes := list_byte_of_string "not a WARC record".

Definition download (filename : json) (_ _ : Z) : outcome bytes :=
  match filename with
  | JStr f =>
      if String.eqb f "crawl-data/missing.warc.gz" then Raise HTTPError
      else if String.eqb f "crawl-data/garbled.warc.gz" then Ret garbled
      else Ret (list_byte_of_string f)
  | _ => Raise TypeError
  end.

(** A well-formed range holds a request record and a response record; the
    garbled one makes the iterator raise before it yields anything. *)
Definition warc_iterator (data : bytes) : list Worker.warc_record * option exn :=
  if String.eqb (string_of_list_byte data) "not a WARC record"
  then ([], Some (OtherException "ArchiveLoadFailed"))
  else ([Worker.mkRecord "request" []; Worker.mkRecord "response" data], None).

Fixpoint replicate (n : nat) (c : ascii) : string :=
  match n with
  | O => ""
  | S n' => String c (replicate n' c)
  end.

(** An extractor that finds 600 characters of text in every response, and a
    tokenizer that encodes every text as the same two tokens. *)
Definition extract (_ : bytes) : outcome (option string) := Ret (Some (replicate 600 "a")).
Definition encode (_ : string) : outcome (list Z) := Ret [15496%Z; 995%Z].

Definition worker_init : Worker.state ObjectStore.world :=
  Worker.mkState _ empty_store [] 0 0 0 0 0.

Definition run_worker (delivery_tag : Z) (items : list json)
  : outcome unit * Worker.state ObjectStore.world :=
  Worker.process_batch _ store_save loads_body int_of download warc_iterator extract encode
    delivery_tag (batch_body items) worker_init.

End Fixture.

(** ** Definitions for the properties of the remaining code *)

(** *** Texts *)

Module Text.

(** [c in s] for a character [c]. *)
Fixpoint occurs (c : ascii) (s : string) : bool :=
  match s with
  | EmptyString => false
  | String a rest => Ascii.eqb a c || occurs c rest
  end.

(** [s.replace(c, "")] *)
Fixpoint remove (c : ascii) (s : string) : string :=
  match s with
  | EmptyString => EmptyString
  | String a rest => if Ascii.eqb a c then remove c rest else String a (remove c rest)
  end.

Definition digit (c : ascii) : bool :=
  existsb (Ascii.eqb c) ["0"; "1"; "2"; "3"; "4"; "5"; "6"; "7"; "8"; "9"]%char.

(** The number a string of decimal digits denotes, leading zeros allowed. *)
Definition value (s : string) : option nat :=
  match NilEmpty.uint_of_string s with
  | Some d => Some (Nat.of_uint d)
  | None => None
  end.

End Text.

(** *** Relations between states *)

Module Effects.

(** Every run of [m], however it ends, takes a state to one related by [R]. *)
Definition steps {S A : Type} (R : S -> S -> Prop) (m : M S A) : Prop :=
  forall s, R s (snd (m s)).

End Effects.

(** *** The counters of the batcher *)

Module Metrics.
Import Batcher.

(** What the counters say of the queue: the batches published since [st]
    are as many as [batch_counter] went up, their records as many as
    [batcher_docs_sent] went up, and the other two counters did not go
    down. *)
Definition counted (st st' : state) : Prop :=
  exists new,
    published st' = published st ++ new
    /\ batch_counter st' = batch_counter st + length new
    /\ batcher_docs_sent st' = batcher_docs_sent st + length (concat new)
    /\ batcher_docs_seen st <= batcher_docs_seen st'
    /\ batcher_docs_filtered st <= batcher_docs_filtered st'.

(** The lines of a range that count as seen (line 63). *)
Definition seen_line (line : string) : list string :=
  if String.eqb line "" then [] else [line].

Section Collaborators.

Variable int_of_str : string -> outcome Z.
Variable download_and_unzip : string -> Z -> Z -> outcome bytes.
Variable decode_utf8 : bytes -> outcome string.

Definition seen_chunk (cdx_chunk : list string) : list string :=
  match fetch int_of_str download_and_unzip decode_utf8 cdx_chunk with
  | Ret data => flat_map seen_line (split "010" data)
  | Raise _ => []
  end.

End Collaborators.

End Metrics.

(** *** The batches of single lines *)

Module LineDefs.
Import Batcher.
(** The batches a range gives rise to when the batch size is not positive:
    one for each non-empty line. *)
Section Collaborators.
Variable json_loads : string -> outcome json.
Variable int_of_str : string -> outcome Z.
Variable download_and_unzip : string -> Z -> Z -> outcome bytes.
Variable decode_utf8 : bytes -> outcome string.

Definition line_batches (line : string) : list (list json) :=
  if String.eqb line "" then [] else [accepted_line json_loads line].

Definition chunk_batches (cdx_chunk : list string) : list (list json) :=
  match fetch int_of_str download_and_unzip decode_utf8 cdx_chunk with
  | Ret data => flat_map line_batches (split "010" data)
  | Raise _ => []
  end.
End Collaborators.
End LineDefs.

(** *** worker.py: the consumer loop and what it saves *)

Module Consumer.
Import Worker.

Section Collaborators.

Variable Store : Type.
Variable store_save : json -> M Store unit.
Variable json_loads : string -> outcome json.
Variable int_of : json -> outcome Z.
Variable download_and_unzip : json -> Z -> Z -> outcome bytes.
Variable WARCIterator : bytes -> list warc_record * option exn.
Variable extract : bytes -> outcome (option string).
Variable encode : string -> outcome (list Z).
(** [start_http_server(self.port)] and [rabbitmq_channel()]: the exception
    each raises at start-up, if any. *)
Variable start_http_server : option exn.
Variable rabbitmq_channel : option exn.

(** [channel.start_consuming()] with [process_batch] as the callback and a
    prefetch count of 1: the broker hands over one message at a time, in
    order, each as [(method.delivery_tag, body)]; an exception of the
    callback leaves the loop. *)
Definition start_consuming (deliveries : list (Z * string)) : M (state Store) unit :=
  for_each
    (fun delivery (_ : unit) =>
       process_batch Store store_save json_loads int_of download_and_unzip WARCIterator
         extract encode (fst delivery) (snd delivery))
    deliveries tt.

(** [Worker.run()] on the messages [deliveries]. *)
Definition run (deliveries : list (Z * string)) : M (state Store) unit :=
  lift (match start_http_server with Some e => Raise e | None => Ret tt end) ;;
  lift (match rabbitmq_channel with Some e => Raise e | None => Ret tt end) ;;
  start_consuming deliveries.

(** The store after the calls [self.store.save(doc)] for [docs], in order,
    failed calls included. *)
Definition run_saves (docs : list json) (s : Store) : Store :=
  fold_left (fun s doc => snd (store_save doc s)) docs s.

(** [doc] is the dict of lines 60-66 for [item]: its url, timestamp and
    metadata are the item's, its content is a text the extractor returned,
    of a length within the band, and its tokens are the encoding of that
    text. *)
Definition document_of (item doc : json) : Prop :=
  exists url timestamp metadata raw text tokens,
    getitem item "surt_url" = Ret url
    /\ getitem item "timestamp" = Ret timestamp
    /\ getitem item "metadata" = Ret metadata
    /\ extract raw = Ret (Some text)
    /\ (MIN_DOC_LENGTH <= text_len text <= MAX_DOC_LENGTH)%Z
    /\ encode text = Ret tokens
    /\ doc = JObj [("url", url); ("timestamp", timestamp); ("content", JStr text);
                   ("tokens", JArr (map JInt tokens)); ("metadata", metadata)].

(** All that [m] does to the store is to save documents that satisfy [P],
    and it counts as processed no more documents than it saves. *)
Definition saves_only {A : Type} (P : json -> Prop) (m : M (state Store) A) : Prop :=
  forall st, exists docs,
    Forall P docs
    /\ store Store (snd (m st)) = run_saves docs (store Store st)
    /\ docs_processed Store st <= docs_processed Store (snd (m st))
       <= docs_processed Store st + length docs.

(** Whether an item of a batch is a dict, as the batcher sends them. *)
Definition is_dict (item : json) : bool :=
  match item with
  | JObj _ => true
  | _ => false
  end.

(** What items cannot change: the acknowledgements and the two counters of
    batches. *)
Definition same_batches (st st' : state Store) : Prop :=
  acks Store st' = acks Store st
  /\ batch_counter Store st' = batch_counter Store st
  /\ docs_received Store st' = docs_received Store st.

End Collaborators.

End Consumer.

(** *** commoncrawl.py *)

Module CommonCrawl.

Definition BASE_URL : string := "https://data.commoncrawl.org".

(** [crawl_path(version)]: [CRAWL_PATH.format(version)] *)
Definition crawl_path (version : string) : string :=
  ("cc-index/collections/" ++ version ++ "/indexes")%string.

(** What [requests.get] returns, as far as [download_and_unzip] reads it. *)
Record response : Type := mkResponse {
  status_code : Z;
  content : bytes
}.

(** [response.raise_for_status()]: the 4xx and 5xx codes raise. *)
Definition raise_for_status (r : response) : outcome unit :=
  if ((400 <=? status_code r) && (status_code r <? 600))%Z then Raise HTTPError else Ret tt.

(** Line 29: the value of the [Range] header. *)
Definition range_header (start length : Z) : string :=
  ("bytes=" ++ ObjectStore.str_of_int start ++ "-"
            ++ ObjectStore.str_of_int (start + length - 1))%string.

Section Http.

(** [requests.get(url, headers={"Range": range}, verify=False)] *)
Variable requests_get : string -> string -> outcome response.
(** [gzip.decompress] *)
Variable gzip_decompress : bytes -> outcome bytes.

(** [CCDownloader(base_url).download_and_unzip(url, start, length)] *)
Definition download_and_unzip (base_url url : string) (start length : Z) : outcome bytes :=
  match requests_get (base_url ++ "/" ++ url)%string (range_header start length) with
  | Raise e => Raise e
  | Ret r =>
      match raise_for_status r with
      | Raise e => Raise e
      | Ret _ => gzip_decompress (content r)
      end
  end.

(** The downloader of the batcher (batcher.py, line 96) and that of the
    worker (worker.py, line 110); [str_of] is the text an f-string gives
    for a value that is not a [str]. *)
Definition index_downloader (crawl_version : string) : string -> Z -> Z -> outcome bytes :=
  download_and_unzip (BASE_URL ++ "/" ++ crawl_path crawl_version)%string.

Definition archive_downloader (str_of : json -> string) (filename : json)
  : Z -> Z -> outcome bytes :=
  download_and_unzip BASE_URL (match filename with JStr s => s | other => str_of other end).

End Http.

End CommonCrawl.

(** *** Concrete collaborators for the further examples *)

Module Fixture2.
Import Fixture.

(** [process_index] on one index row whose range holds [data], with batch
    size [bs]. *)
Definition run_batcher_with (bs : Z) (data : string) : outcome unit * Batcher.state :=
  Batcher.process_index json_loads int_of_str (serve data) decode_utf8 accept_all
    [row] bs Batcher.init.

(** An index row cut after its third field. *)
Definition short_row : list string :=
  ["0,100,22,165)/ 20240722120756"; "cdx-00000.gz"; "0"].

(** A line whose metadata holds a space inside a string. *)
Definition spaced_text : string :=
  ("{" ++ quoted "title" ++ ": " ++ quoted "two words" ++ "}")%string.

(** A broker that cannot be reached again. *)
Definition never_reconnects (_ : nat) : option exn := Some (Pika AMQPConnectionError).

(** A server that answers 404 to every request, and a decompression that
    returns its input. *)
Definition not_found (_ _ : string) : outcome CommonCrawl.response :=
  Ret (CommonCrawl.mkResponse 404 []).
Definition gunzip (raw : bytes) : outcome bytes := Ret raw.
Definition str_of (_ : json) : string := "None".

(** A body that is a JSON object instead of a list of items. *)
Definition dict : json := JObj [("surt_url", JStr "com,example)/a")].
Definition dict_body : string := dumps dict.
Definition loads_any (s : string) : outcome json :=
  if String.eqb s dict_body then Ret dict else loads_body s.

(** Two deliveries of three items each. *)
Definition deliveries : list (Z * string) :=
  [(1%Z, batch_body [item_1; item_2; item_3]);
   (2%Z, batch_body [item_1; item_garbled; item_3])].

Definition run_consumer (messages : list (Z * string))
  : outcome unit * Worker.state ObjectStore.world :=
  Consumer.run _ store_save loads_body int_of download warc_iterator extract encode
    None None messages worker_init.

End Fixture2.

(** * Properties *)

(** ** The batcher *)

Module BatcherFacts.
Import Batcher.

Lemma for_each_app {S A X : Type} (body : X -> A -> M S A) (xs ys : list X) (acc : A) (s : S) :
  for_each body (xs ++ ys) acc s =
  match for_each body xs acc s with
  | (Ret acc', s') => for_each body ys acc' s'
  | (Raise e, s') => (Raise e, s')
  end.
Proof.
  revert acc s. induction xs as [|x xs IH]; intros acc s; simpl; [reflexivity|].
  unfold bind. destruct (body x acc s) as [[acc1|e] s1]; [apply IH|reflexivity].
Qed.

(** When the acceptance test returns, it returns the spec's condition. *)
Lemma accept_Ret metadata b : accept metadata = Ret b -> b = qualifies metadata.
Proof.
  unfold accept, accept_traced, qualifies.
  destruct metadata as [ | | | | s | items | fields]; simpl; try discriminate.
  - destruct (substring_of "languages" s); simpl; congruence.
  - destruct (existsb _ items); simpl; congruence.
  - destruct (assoc "languages" fields) as [langs|]; simpl.
    + destruct (contains "eng" langs) as [[|]|]; simpl.
      * destruct (assoc "status" fields) as [status|]; simpl; [|discriminate].
        intros [= <-]. now rewrite andb_true_r.
      * intros [= <-]. destruct (assoc "status" fields); [now rewrite andb_false_r|reflexivity].
      * discriminate.
    + intros [= <-]. now destruct (assoc "status" fields).
Qed.

(** C10: the acceptance test reads ["status"] only after it has found
    ["languages"] and ["eng"] in it.  A mapping without ["languages"], or
    whose ["languages"] does not contain ["eng"], is rejected after the reads
    listed, none of which is of ["status"], whatever the mapping holds or
    lacks under ["status"]; the read of ["status"] happens exactly when
    ["languages"] is present and contains ["eng"], and the test raises
    [KeyError "status"] exactly when, moreover, ["status"] is absent. *)
Theorem accept_short_circuit (fields : list (string * json)) :
  (assoc "languages" fields = None ->
     accept_traced (JObj fields) = (Ret false, [Contains "languages"]))
  /\ (forall languages,
        assoc "languages" fields = Some languages ->
        contains "eng" languages = Ret false ->
        accept_traced (JObj fields)
        = (Ret false, [Contains "languages"; GetItem "languages"]))
  /\ (In (GetItem "status") (snd (accept_traced (JObj fields)))
      <-> exists languages,
            assoc "languages" fields = Some languages
            /\ contains "eng" languages = Ret true)
  /\ (accept (JObj fields) = Raise (KeyError "status")
      <-> (exists languages,
             assoc "languages" fields = Some languages
             /\ contains "eng" languages = Ret true)
          /\ assoc "status" fields = None).
Proof.
  unfold accept, accept_traced; simpl.
  destruct (assoc "languages" fields) as [langs|]; simpl.
  2: { split; [reflexivity|]. split; [discriminate|]. split; split.
       - intros [H|[]]; discriminate.
       - intros (l & H & _); discriminate.
       - discriminate.
       - intros [(l & H & _) _]; discriminate. }
  split; [discriminate|].
  destruct (contains "eng" langs) as [[|]|e] eqn:Hc; simpl.
  - split; [intros l [= <-]; congruence|].
    destruct (assoc "status" fields) as [status|]; simpl.
    + split; split.
      * intros _. eauto.
      * intros _. right; right; left; reflexivity.
      * discriminate.
      * intros [_ H]; discriminate.
    + split; split.
      * intros _. eauto.
      * intros _. right; right; left; reflexivity.
      * intros _. eauto.
      * reflexivity.
  - split; [reflexivity|]. split; split.
    + intros [H|[H|[]]]; discriminate.
    + intros (l & [= <-] & H); congruence.
    + discriminate.
    + intros [(l & [= <-] & H) _]; congruence.
  - split; [intros l [= <-]; congruence|]. split; split.
    + intros [H|[H|[]]]; discriminate.
    + intros (l & [= <-] & H); congruence.
    + intros [= ->]. destruct langs; discriminate.
    + intros [(l & [= <-] & H) _]; congruence.
Qed.

Section Run.

Variable json_loads : string -> outcome json.
Variable int_of_str : string -> outcome Z.
Variable download_and_unzip : string -> Z -> Z -> outcome bytes.
Variable decode_utf8 : bytes -> outcome string.
Variable basic_publish : list (list json) -> list json -> option exn.

Local Abbreviation publish_batch := (Batcher.publish_batch basic_publish).
Local Abbreviation fetch := (Batcher.fetch int_of_str download_and_unzip decode_utf8).
Local Abbreviation flush_if_full := (Batcher.flush_if_full basic_publish).
Local Abbreviation process_line := (Batcher.process_line json_loads basic_publish).
Local Abbreviation process_chunk :=
  (Batcher.process_chunk json_loads int_of_str download_and_unzip decode_utf8 basic_publish).
Local Abbreviation process_index :=
  (Batcher.process_index json_loads int_of_str download_and_unzip decode_utf8 basic_publish).
Local Abbreviation final_flush := (Batcher.final_flush basic_publish).
Local Abbreviation accepted_line := (Batcher.accepted_line json_loads).
Local Abbreviation accepted_chunk :=
  (Batcher.accepted_chunk json_loads int_of_str download_and_unzip decode_utf8).

Lemma publish_batch_Ret batch st st' :
  publish_batch batch st = (Ret tt, st') ->
  published st' = published st ++ [batch].
Proof.
  unfold Batcher.publish_batch. destruct (basic_publish _ _); [discriminate|].
  now intros [= <-].
Qed.

Lemma index_nth (xs : list string) i x : index xs i = Ret x -> nth i xs "" = x.
Proof.
  unfold index. destruct (nth_error xs i) eqn:E; [|discriminate].
  intros [= <-]. now apply nth_error_nth.
Qed.

Lemma grows_refl bs found st : grows bs found st [] found st.
Proof.
  exists []. rewrite !app_nil_r. repeat split; [constructor|easy].
Qed.

Lemma grows_trans bs f st e1 f1 st1 e2 f2 st2 :
  grows bs f st e1 f1 st1 -> grows bs f1 st1 e2 f2 st2 ->
  grows bs f st (e1 ++ e2) f2 st2.
Proof.
  intros (n1 & Hp1 & Hc1 & Hs1) (n2 & Hp2 & Hc2 & Hs2).
  exists (n1 ++ n2). split; [|split].
  - now rewrite Hp2, Hp1, app_assoc.
  - now rewrite concat_app, <- !app_assoc, Hc2, !app_assoc, Hc1.
  - intros Hbs Hlen. destruct (Hs1 Hbs Hlen) as [HF1 Hl1].
    destruct (Hs2 Hbs Hl1) as [HF2 Hl2].
    split; [|exact Hl2]. apply Forall_app. now split.
Qed.

Lemma for_each_grows {X : Type} bs (body : X -> list json -> M state (list json))
    (ext : X -> list json) :
  (forall x f st f' st', body x f st = (Ret f', st') -> grows bs f st (ext x) f' st') ->
  forall xs f st f' st',
    for_each body xs f st = (Ret f', st') -> grows bs f st (flat_map ext xs) f' st'.
Proof.
  intros Hbody. induction xs as [|x xs IH]; intros f st f' st'; simpl.
  - intros [= <- <-]. apply grows_refl.
  - unfold bind at 1.
    destruct (body x f st) as [[f1|e] st1] eqn:H1; [|discriminate].
    intros H2. eapply grows_trans; eauto.
Qed.

(** The size check after a line that may have added one record. *)
Lemma flush_if_full_Ret bs found found' st st' :
  flush_if_full bs found st = (Ret found', st') ->
  exists new,
    published st' = published st ++ new
    /\ concat new ++ found' = found
    /\ ((0 < bs)%Z -> (Z.of_nat (length found) <= bs)%Z ->
        Forall (fun batch => Z.of_nat (length batch) = bs) new
        /\ (Z.of_nat (length found') < bs)%Z).
Proof.
  unfold Batcher.flush_if_full. destruct (Z.geb_spec (Z.of_nat (length found)) bs) as [Hge|Hlt].
  - unfold bind, modify, ret.
    destruct (publish_batch found st) as [[[]|e] st1] eqn:Hp; [|discriminate].
    intros [= <- <-]. exists [found]. simpl.
    rewrite (publish_batch_Ret _ _ _ Hp). rewrite !app_nil_r.
    repeat split; [|lia]. repeat constructor. lia.
  - intros [= <- <-]. exists []. rewrite app_nil_r.
    repeat split; [constructor|lia].
Qed.

(** A line that the loop gets past moves [accepted_line] of it into the
    batches. *)
Lemma process_line_Ret bs line found found' st st' :
  process_line bs line found st = (Ret found', st') ->
  grows bs found st (accepted_line line) found' st'.
Proof.
  unfold Batcher.process_line, Batcher.accepted_line, metadata_text.
  destruct (String.eqb line "").
  - intros [= <- <-]. apply grows_refl.
  - unfold bind, modify, lift, ret.
    destruct (json_loads _) as [metadata|e]; [|discriminate].
    destruct (accept metadata) as [ok|e] eqn:Hok; [|discriminate].
    apply accept_Ret in Hok. rewrite <- Hok.
    destruct ok.
    + destruct (index (split " " line) 0) as [surt_url|] eqn:H0; [|discriminate].
      destruct (index (split " " line) 1) as [timestamp|] eqn:H1; [|discriminate].
      intros Hf. apply flush_if_full_Ret in Hf as (new & Hp & Hc & Hs).
      exists new. split; [exact Hp|]. split.
      * unfold record_of. now rewrite (index_nth _ _ _ H0), (index_nth _ _ _ H1).
      * intros Hbs Hlen. apply Hs; [exact Hbs|]. rewrite length_app. simpl. lia.
    + intros Hf. apply flush_if_full_Ret in Hf as (new & Hp & Hc & Hs).
      exists new. split; [exact Hp|]. split; [now rewrite app_nil_r|].
      intros Hbs Hlen. apply Hs; [exact Hbs|lia].
Qed.

Lemma process_chunk_Ret bs cdx_chunk found found' st st' :
  process_chunk bs cdx_chunk found st = (Ret found', st') ->
  grows bs found st (accepted_chunk cdx_chunk) found' st'.
Proof.
  unfold Batcher.process_chunk, Batcher.accepted_chunk, bind, lift.
  destruct (fetch cdx_chunk) as [data|e]; [|discriminate].
  apply for_each_grows. intros x f s f' s'. apply process_line_Ret.
Qed.

Lemma chunks_Ret bs chunks found found' st st' :
  for_each (process_chunk bs) chunks found st = (Ret found', st') ->
  grows bs found st (flat_map accepted_chunk chunks) found' st'.
Proof.
  apply for_each_grows. intros x f s f' s'. apply process_chunk_Ret.
Qed.

(** The two conditionals after the loop: a remainder that is not empty goes
    out twice. *)
Lemma final_flush_Ret found st st' :
  final_flush found st = (Ret tt, st') ->
  published st' = published st ++ match found with [] => [] | _ => [found; found] end.
Proof.
  unfold Batcher.final_flush. destruct found as [|r found].
  - simpl. unfold bind, ret. intros [= <-]. now rewrite app_nil_r.
  - set (f := r :: found). simpl. unfold bind, modify.
    destruct (publish_batch f st) as [[[]|e] st1] eqn:H1; [|discriminate].
    simpl.
    match goal with
    | |- context [Batcher.publish_batch _ f ?s] =>
        destruct (publish_batch f s) as [[[]|e] st2] eqn:H2; [|discriminate]
    end.
    intros [= <-]. simpl.
    rewrite (publish_batch_Ret _ _ _ H2). simpl.
    rewrite (publish_batch_Ret _ _ _ H1). now rewrite <- app_assoc.
Qed.

(** What a run that returns has published: full batches holding, in order,
    the accepted records of all its lines, then the remainder, if any,
    twice. *)
Lemma process_index_Ret lines bs st st' :
  process_index lines bs st = (Ret tt, st') ->
  exists full rest,
    published st' = published st ++ full ++ match rest with [] => [] | _ => [rest; rest] end
    /\ concat full ++ rest = flat_map accepted_chunk lines
    /\ ((0 < bs)%Z ->
        Forall (fun batch => Z.of_nat (length batch) = bs) full
        /\ (Z.of_nat (length rest) < bs)%Z).
Proof.
  unfold Batcher.process_index, bind.
  destruct (for_each _ lines [] st) as [[found|e] st1] eqn:H1; [|discriminate].
  intros H2. apply chunks_Ret in H1 as (new1 & Hp1 & Hc1 & Hs1).
  apply final_flush_Ret in H2. simpl in Hc1.
  exists new1, found. split; [|split].
  - now rewrite H2, Hp1, app_assoc.
  - exact Hc1.
  - intros Hbs. apply Hs1; [exact Hbs|]. simpl. lia.
Qed.

Lemma in_published_iff full rest (r : json) :
  In r (concat (full ++ match rest with [] => [] | _ => [rest; rest] end))
  <-> In r (concat full ++ rest).
Proof.
  rewrite concat_app, !in_app_iff.
  destruct rest as [|x rest]; simpl; [tauto|].
  rewrite app_nil_r, in_app_iff. simpl. tauto.
Qed.

Lemma grows_sound bs found st extra found' st' :
  grows bs found st extra found' st' -> sound found st extra (Ret found', st').
Proof.
  intros (new & Hp & Hc & _). exists new. split; [exact Hp|]. split.
  - intros r Hr. rewrite <- Hc. apply in_app_iff. now left.
  - intros f [= <-] r Hr. rewrite <- Hc. apply in_app_iff. now right.
Qed.

Lemma unchanged_sound found st extra e st' :
  published st' = published st -> sound found st extra (Raise e, st').
Proof.
  intros Hp. exists []. simpl. rewrite app_nil_r. split; [exact Hp|].
  split; [contradiction|discriminate].
Qed.

Lemma for_each_sound {X : Type} (body : X -> list json -> M state (list json))
    (ext : X -> list json) :
  (forall x f st, sound f st (ext x) (body x f st)) ->
  forall xs f st, sound f st (flat_map ext xs) (for_each body xs f st).
Proof.
  intros Hbody. induction xs as [|x xs IH]; intros f st; simpl.
  - exists []. simpl. rewrite !app_nil_r. split; [reflexivity|].
    split; [contradiction|]. now intros f' [= <-].
  - unfold bind. destruct (Hbody x f st) as (n1 & Hp1 & Hn1 & Hf1).
    destruct (body x f st) as [[f1|e] st1]; simpl in *.
    + destruct (IH f1 st1) as (n2 & Hp2 & Hn2 & Hf2).
      assert (forall r, In r (f1 ++ flat_map ext xs) -> In r (f ++ ext x ++ flat_map ext xs))
        as Hstep.
      { intros r Hr. apply in_app_iff in Hr as [Hr|Hr].
        - rewrite app_assoc. apply in_app_iff. left. now apply (Hf1 f1).
        - rewrite app_assoc. apply in_app_iff. now right. }
      exists (n1 ++ n2). split; [now rewrite Hp2, Hp1, app_assoc|]. split.
      * intros r Hr. rewrite concat_app in Hr. apply in_app_iff in Hr as [Hr|Hr].
        -- rewrite app_assoc. apply in_app_iff. left. now apply Hn1.
        -- now apply Hstep, Hn2.
      * intros f' Hf' r Hr. apply Hstep. now apply (Hf2 f').
    + exists n1. split; [exact Hp1|]. split; [|discriminate].
      intros r Hr. rewrite app_assoc. apply in_app_iff. left. now apply Hn1.
Qed.

Lemma publish_batch_Raise batch st e st' :
  publish_batch batch st = (Raise e, st') -> st' = st.
Proof.
  unfold Batcher.publish_batch. destruct (basic_publish _ _); [|discriminate].
  now intros [= _ <-].
Qed.

Lemma flush_if_full_Raise bs found st e st' :
  flush_if_full bs found st = (Raise e, st') -> published st' = published st.
Proof.
  unfold Batcher.flush_if_full. destruct (_ >=? _)%Z; [|discriminate].
  unfold bind, modify, ret.
  destruct (publish_batch found st) as [[[]|e1] st1] eqn:Hp; [discriminate|].
  intros [= _ <-]. now rewrite (publish_batch_Raise _ _ _ _ Hp).
Qed.

Lemma process_line_sound bs line found st :
  sound found st (accepted_line line) (process_line bs line found st).
Proof.
  destruct (process_line bs line found st) as [[found'|e] st'] eqn:Hrun.
  - eapply grows_sound, process_line_Ret, Hrun.
  - apply unchanged_sound. revert Hrun. unfold Batcher.process_line.
    destruct (String.eqb line ""); [discriminate|].
    unfold bind, modify, lift, ret.
    destruct (json_loads _) as [metadata|]; [|now intros [= _ <-]].
    destruct (accept metadata) as [[|]|]; [| |now intros [= _ <-]].
    + destruct (index (split " " line) 0); [|now intros [= _ <-]].
      destruct (index (split " " line) 1); [|now intros [= _ <-]].
      intros H. now apply flush_if_full_Raise in H.
    + intros H. now apply flush_if_full_Raise in H.
Qed.

Lemma process_chunk_sound bs cdx_chunk found st :
  sound found st (accepted_chunk cdx_chunk) (process_chunk bs cdx_chunk found st).
Proof.
  unfold Batcher.process_chunk, Batcher.accepted_chunk, bind, lift.
  destruct (fetch cdx_chunk) as [data|e].
  - apply for_each_sound. intros x f s. apply process_line_sound.
  - now apply unchanged_sound.
Qed.

(** Whatever way a run ends, it has published accepted records only. *)
Lemma process_index_sound lines bs st :
  exists new,
    published (snd (process_index lines bs st)) = published st ++ new
    /\ forall r, In r (concat new) -> In r (flat_map accepted_chunk lines).
Proof.
  unfold Batcher.process_index, bind.
  destruct (for_each_sound (process_chunk bs) accepted_chunk
              (fun x f s => process_chunk_sound bs x f s) lines [] st)
    as (new & Hp & Hn & Hf).
  destruct (for_each _ lines [] st) as [[found|e] st1]; simpl in *; [|eauto].
  specialize (Hf found eq_refl).
  unfold Batcher.final_flush, bind, modify.
  destruct found as [|x found]; simpl; [eauto|].
  set (f := x :: found) in *.
  assert (forall r, In r (concat (new ++ [f])) -> In r (flat_map accepted_chunk lines)) as H1.
  { intros r Hr. rewrite concat_app in Hr. simpl in Hr. rewrite app_nil_r in Hr.
    apply in_app_iff in Hr as [Hr|Hr]; auto. }
  destruct (publish_batch f st1) as [[[]|e1] s1] eqn:P1; simpl.
  - apply publish_batch_Ret in P1.
    match goal with
    | |- context [Batcher.publish_batch _ f ?s] =>
        destruct (publish_batch f s) as [[[]|e2] s2] eqn:P2; simpl
    end.
    + apply publish_batch_Ret in P2. simpl in P2.
      exists ((new ++ [f]) ++ [f]). split; [now rewrite P2, P1, Hp, !app_assoc|].
      intros r Hr. rewrite concat_app in Hr. simpl in Hr. rewrite app_nil_r in Hr.
      apply in_app_iff in Hr as [Hr|Hr]; auto.
    + apply publish_batch_Raise in P2. subst s2. simpl.
      exists (new ++ [f]). split; [now rewrite P1, Hp, app_assoc|exact H1].
  - apply publish_batch_Raise in P1. subst s1. eauto.
Qed.

(** C1 (the code breaks it): with a channel that takes every body, the
    statements after the loop hand a non-empty remaining batch to
    [publish_batch] two times, not one: the queue receives it twice, the
    batch counter goes up by two and the sent counter by twice the length. *)
Theorem final_flush_publishes_twice found st :
  (forall sent body, basic_publish sent body = None) ->
  found <> [] ->
  final_flush found st
  = (Ret tt,
     mkState (published st ++ [found; found]) (2 + batch_counter st)
             (batcher_docs_seen st) (batcher_docs_filtered st)
             (batcher_docs_sent st + length found + length found)).
Proof.
  intros Hok Hne. unfold Batcher.final_flush.
  destruct found as [|r found]; [contradiction|].
  set (f := r :: found). simpl.
  unfold bind, modify, Batcher.publish_batch. rewrite Hok. simpl. rewrite Hok. simpl.
  unfold inc_docs_sent, inc_batch_counter, enqueue. simpl.
  now rewrite <- app_assoc.
Qed.

(** C5 (the code breaks it): a run with batch size [BATCH_SIZE] that
    returns has published full batches of exactly [BATCH_SIZE] records and
    then the shorter remainder, when there is one, two times; so a remainder
    of 1 to 49 records is also the batch before the last, which is not of
    length [BATCH_SIZE]. *)
Theorem remainder_is_published_twice lines st st' :
  process_index lines BATCH_SIZE st = (Ret tt, st') ->
  exists full rest,
    published st' = published st ++ full ++ match rest with [] => [] | _ => [rest; rest] end
    /\ Forall (fun batch => Z.of_nat (length batch) = BATCH_SIZE) full
    /\ (Z.of_nat (length rest) < BATCH_SIZE)%Z
    /\ concat full ++ rest = flat_map accepted_chunk lines.
Proof.
  intros Hrun. apply process_index_Ret in Hrun as (full & rest & Hp & Hacc & Hs).
  destruct Hs as [HF Hl]; [reflexivity|].
  exists full, rest. auto.
Qed.

(** For a positive batch size, every batch a returning run publishes
    holds between 1 and [bs] records, and the run publishes no batch exactly
    when no line of the index qualifies. *)
Theorem published_batches_bounded lines bs st st' :
  process_index lines bs st = (Ret tt, st') ->
  (0 < bs)%Z ->
  exists new,
    published st' = published st ++ new
    /\ Forall (fun batch => (1 <= Z.of_nat (length batch) <= bs)%Z) new
    /\ (new = [] <-> flat_map accepted_chunk lines = []).
Proof.
  intros Hrun Hbs. apply process_index_Ret in Hrun as (full & rest & Hp & Hacc & Hs).
  destruct (Hs Hbs) as [HF Hl].
  exists (full ++ match rest with [] => [] | _ => [rest; rest] end).
  split; [exact Hp|]. split.
  - apply Forall_app. split.
    + eapply Forall_impl; [exact HF|]. simpl. intros b Hb. lia.
    + destruct rest as [|r rest]; [constructor|].
      repeat constructor; simpl in *; lia.
  - rewrite <- Hacc. split.
    + intros H. apply app_eq_nil in H as [-> H].
      destruct rest; [reflexivity|discriminate].
    + intros H. apply app_eq_nil in H as [Hfull ->]. rewrite app_nil_r.
      destruct full as [|b full]; [reflexivity|].
      simpl in Hfull. apply app_eq_nil in Hfull as [-> _].
      inversion HF as [|? ? Hb _]. simpl in Hb. lia.
Qed.

(** A line whose metadata is not JSON ends the loop at that line. *)
Lemma process_line_malformed bs line found st e :
  line <> "" ->
  json_loads (metadata_text line) = Raise e ->
  process_line bs line found st = (Raise e, inc_docs_seen st).
Proof.
  intros Hne Hbad. unfold Batcher.process_line.
  destruct (String.eqb_spec line "") as [->|_]; [contradiction|].
  unfold bind, modify, lift. simpl.
  unfold metadata_text in Hbad. now rewrite Hbad.
Qed.

Lemma lines_abort bs before bad after found found1 st st1 e :
  for_each (process_line bs) before found st = (Ret found1, st1) ->
  bad <> "" ->
  json_loads (metadata_text bad) = Raise e ->
  for_each (process_line bs) (before ++ bad :: after) found st
  = (Raise e, inc_docs_seen st1).
Proof.
  intros Hpre Hne Hbad. rewrite for_each_app, Hpre. simpl.
  unfold bind. now rewrite (process_line_malformed _ _ _ _ _ Hne Hbad).
Qed.

(** The exception of such a line leaves [process_index]: the lines and
    index rows after it are not read, what is pending is not published. *)
Lemma process_index_abort bs rows_before row rows_after data before bad after
    found0 st0 found1 st1 st e :
  for_each (process_chunk bs) rows_before [] st = (Ret found0, st0) ->
  fetch row = Ret data ->
  split "010" data = before ++ bad :: after ->
  for_each (process_line bs) before found0 st0 = (Ret found1, st1) ->
  bad <> "" ->
  json_loads (metadata_text bad) = Raise e ->
  process_index (rows_before ++ row :: rows_after) bs st = (Raise e, inc_docs_seen st1).
Proof.
  intros Hrows Hfetch Hsplit Hpre Hne Hbad.
  unfold Batcher.process_index. unfold bind at 1.
  rewrite for_each_app, Hrows. simpl. unfold bind at 1.
  unfold Batcher.process_chunk at 1. unfold bind at 1, lift.
  rewrite Hfetch, Hsplit.
  now rewrite (lines_abort _ _ _ _ _ _ _ _ _ Hpre Hne Hbad).
Qed.

Lemma in_accepted_line r line :
  In r (accepted_line line) <->
  line <> "" /\ exists metadata,
    json_loads (metadata_text line) = Ret metadata
    /\ qualifies metadata = true /\ r = record_of line metadata.
Proof.
  unfold Batcher.accepted_line.
  destruct (String.eqb_spec line "") as [->|Hne].
  - simpl. split; [tauto|]. intros [H _]. now apply H.
  - destruct (json_loads (metadata_text line)) as [metadata|e].
    + destruct (qualifies metadata) eqn:Hq; simpl.
      * split.
        -- intros [<-|[]]. split; [exact Hne|]. now exists metadata.
        -- intros (_ & m & [= <-] & _ & ->). now left.
      * split; [tauto|]. intros (_ & m & [= <-] & Hq' & _). congruence.
    + simpl. split; [tauto|]. intros (_ & m & H & _). discriminate.
Qed.


End Run.

End BatcherFacts.

(** ** The queue channel *)

Module RabbitMQFacts.
Import RabbitMQ.

Section Broker.

Variable Body : Type.
Variable pika_basic_publish : nat -> Body -> option exn.
Variable rabbitmq_channel : nat -> option exn.

Local Abbreviation try_publish := (RabbitMQ.try_publish Body pika_basic_publish rabbitmq_channel).
Local Abbreviation loop_body := (RabbitMQ.loop_body Body pika_basic_publish rabbitmq_channel).
Local Abbreviation while_loop := (RabbitMQ.while_loop Body pika_basic_publish rabbitmq_channel).
Local Abbreviation basic_publish :=
  (RabbitMQ.basic_publish Body pika_basic_publish rabbitmq_channel).

(** No round of the loop hands over to a next one: the [raise] of line 72
    is inside the loop. *)
Lemma loop_body_ends body attempt st :
  match fst (loop_body body attempt st) with
  | Next _ => False
  | _ => True
  end.
Proof.
  unfold RabbitMQ.loop_body.
  destruct (try_publish body attempt st) as [[a| |e] st']; exact I.
Qed.

(** [basic_publish] always ends, in its first round. *)
Lemma basic_publish_total body st : exists r, basic_publish body st = Some r.
Proof.
  unfold RabbitMQ.basic_publish. simpl.
  pose proof (loop_body_ends body 0 st) as H.
  destruct (loop_body body 0 st) as [[a| |e] st']; simpl in H; [contradiction|eauto..].
Qed.

(** Whatever the broker does, a call of [basic_publish] ends after exactly
    one publish attempt. *)
Theorem basic_publish_one_attempt body st :
  exists r, basic_publish body st = Some r /\ attempts (snd r) = S (attempts st).
Proof.
  unfold RabbitMQ.basic_publish. simpl.
  unfold RabbitMQ.loop_body, RabbitMQ.try_publish.
  destruct (pika_basic_publish (attempts st) body) as [e|]; [|eauto].
  assert (forall a s, exists sig s',
             RabbitMQ.retry Body rabbitmq_channel a s = (sig, s')
             /\ attempts s' = attempts s
             /\ match sig with Return => False | _ => True end) as Hretry.
  { intros a s. unfold retry, bind, time_sleep, modify, _connect. simpl.
    destruct (rabbitmq_channel (connects s)); simpl; eauto. }
  destruct (unrecoverable e); [eauto|].
  match goal with
  | |- context [RabbitMQ.retry _ _ ?a ?s] =>
      destruct (Hretry a s) as (sig & s' & Hr & Ha & Hsig)
  end.
  destruct (recoverable e); rewrite Hr; destruct sig; try contradiction; simpl; eauto.
Qed.

Lemma basic_publish_success body st :
  pika_basic_publish (attempts st) body = None ->
  basic_publish body st
  = Some (Ret tt, mkState (delivered st ++ [body]) (S (attempts st)) (sleeps st) (connects st)).
Proof.
  intros H. unfold RabbitMQ.basic_publish. simpl.
  unfold RabbitMQ.loop_body, RabbitMQ.try_publish. now rewrite H.
Qed.

(** C8: when the first publish attempt fails with one of the three
    authentication or authorization classes, [basic_publish] raises that
    error at once: one attempt, no sleep, no reconnection, nothing
    delivered. *)
Theorem basic_publish_auth_error_is_fatal body st e :
  In e [Pika AuthenticationError; Pika ProbableAuthenticationError;
        Pika ProbableAccessDeniedError] ->
  pika_basic_publish (attempts st) body = Some e ->
  basic_publish body st
  = Some (Raise e, mkState (delivered st) (S (attempts st)) (sleeps st) (connects st)).
Proof.
  intros He H. unfold RabbitMQ.basic_publish. simpl.
  unfold RabbitMQ.loop_body, RabbitMQ.try_publish. rewrite H.
  destruct He as [<-|[<-|[<-|[]]]]; reflexivity.
Qed.

(** C2 (the code breaks it): when the first publish attempt fails with an
    error outside the authentication classes and the reconnection succeeds,
    [basic_publish] sleeps once, reconnects once and raises the
    exhausted-retries error: it has made one attempt, not three. *)
Theorem basic_publish_gives_up_after_one_attempt body st e :
  pika_basic_publish (attempts st) body = Some e ->
  unrecoverable e = false ->
  rabbitmq_channel (connects st) = None ->
  basic_publish body st
  = Some (Raise (RuntimeError "Failed to publish after 3 retries"),
          mkState (delivered st) (S (attempts st)) (sleeps st ++ [RETRY_DELAY])
                  (S (connects st))).
Proof.
  intros H Hu Hc. unfold RabbitMQ.basic_publish. simpl.
  unfold RabbitMQ.loop_body, RabbitMQ.try_publish. rewrite H, Hu.
  assert (forall a s, connects s = connects st -> 
            RabbitMQ.retry Body rabbitmq_channel a s
            = (Next (S a), mkState (delivered s) (attempts s) (sleeps s ++ [RETRY_DELAY])
                                   (S (connects s)))) as Hretry.
  { intros a s Hs. unfold retry, bind, time_sleep, modify, _connect. simpl.
    now rewrite Hs, Hc. }
  destruct (recoverable e); rewrite Hretry by reflexivity; reflexivity.
Qed.

End Broker.

End RabbitMQFacts.

(** ** The object store *)

Module ObjectStoreFacts.
Import ObjectStore.

Lemma append_cancel_l (p s t : string) : (p ++ s = p ++ t)%string -> s = t.
Proof. induction p as [|c p IH]; simpl; [easy|]. intros [= H]. auto. Qed.

Lemma append_length (s t : string) :
  String.length (s ++ t) = (String.length s + String.length t)%nat.
Proof. induction s as [|c s IH]; simpl; [reflexivity|]. now rewrite IH. Qed.

Lemma append_cancel_same_length (s s' t t' : string) :
  String.length s = String.length s' -> (s ++ t = s' ++ t')%string -> s = s'.
Proof.
  revert s'. induction s as [|c s IH]; intros [|c' s']; simpl; try easy.
  intros [= Hl] [= -> H]. f_equal. auto.
Qed.

Lemma append_cancel_r (s s' t : string) : (s ++ t = s' ++ t)%string -> s = s'.
Proof.
  intros H. apply (append_cancel_same_length s s' t t); [|exact H].
  apply (f_equal String.length) in H. rewrite !append_length in H. lia.
Qed.

Lemma str_of_int_inj z z' : str_of_int z = str_of_int z' -> z = z'.
Proof.
  unfold str_of_int. intros H. apply to_int_inj.
  assert (forall n, NilZero.int_of_string (NilZero.string_of_int (Z.to_int n))
                    = Some (Z.to_int n)) as Hisi.
  { intros n. apply NilZero.isi; destruct n; simpl; try discriminate;
      intros [= Hn]; now apply Unsigned.to_uint_nonnil in Hn. }
  pose proof (Hisi z) as Hz. rewrite H, Hisi in Hz. now injection Hz.
Qed.

(** On one date, the key is the millisecond reading and nothing else. *)
Lemma key_same_date c c' :
  utcnow_date c = utcnow_date c' -> (key c = key c' <-> ticks c = ticks c').
Proof.
  intros Hd. unfold key. rewrite Hd. split.
  - intros H. apply append_cancel_l, append_cancel_l, append_cancel_r in H.
    now apply str_of_int_inj.
  - now intros ->.
Qed.

Section Store.

Variable Doc : Type.
Variable json_dumps : Doc -> string.

Local Abbreviation save := (ObjectStore.save Doc json_dumps always).
Local Abbreviation line_of := (ObjectStore.line_of Doc json_dumps).

Lemma save_always c doc objs : save c doc objs = (Ret tt, <[key c := line_of doc]> objs).
Proof. reflexivity. Qed.

(** C4 (the code breaks it): two calls of [save] that read the same UTC
    date and the same millisecond build the same key, so the second call
    replaces the object of the first: the bucket holds one object for the
    two documents, the second. *)
Theorem save_same_millisecond_overwrites c1 c2 doc1 doc2 objs :
  utcnow_date c1 = utcnow_date c2 ->
  ticks c1 = ticks c2 ->
  key c1 = key c2
  /\ bind (save c1 doc1) (fun _ => save c2 doc2) objs
     = (Ret tt, <[key c1 := line_of doc2]> objs)
  /\ (objs !! key c1 = None ->
      size (snd (bind (save c1 doc1) (fun _ => save c2 doc2) objs)) = S (size objs)).
Proof.
  intros Hd Ht.
  assert (key c1 = key c2) as Hk by (now apply key_same_date).
  split; [exact Hk|].
  unfold bind. rewrite !save_always. rewrite <- Hk, insert_insert_eq.
  split; [reflexivity|]. intros Hnone. simpl. now apply map_size_insert_None.
Qed.

(** Two calls on one date that read different milliseconds create two
    objects, under keys that differ in the millisecond part only. *)
Theorem save_distinct_milliseconds c1 c2 doc1 doc2 objs :
  utcnow_date c1 = utcnow_date c2 ->
  ticks c1 <> ticks c2 ->
  objs !! key c1 = None -> objs !! key c2 = None ->
  key c1 <> key c2
  /\ size (snd (bind (save c1 doc1) (fun _ => save c2 doc2) objs)) = S (S (size objs)).
Proof.
  intros Hd Ht H1 H2.
  assert (key c1 <> key c2) as Hk by (intros H; now apply key_same_date in H).
  split; [exact Hk|].
  unfold bind. rewrite !save_always. simpl.
  rewrite map_size_insert_None by (now rewrite lookup_insert_ne).
  now rewrite map_size_insert_None.
Qed.

End Store.

End ObjectStoreFacts.

(** ** The worker *)

Module WorkerFacts.
Import Worker.

(** C9: [_is_valid_doc] accepts a text exactly when its length lies
    between 500 and 1,000,000, both included, and rejects [None]; lengths
    499 and 1,000,001 are rejected, lengths 500 and 1,000,000 accepted. *)
Theorem is_valid_doc_length_band :
  (forall text,
      _is_valid_doc text = true
      <-> exists t, text = Some t /\ (500 <= text_len t <= 1000000)%Z)
  /\ _is_valid_doc None = false
  /\ (forall t, text_len t = 499%Z -> _is_valid_doc (Some t) = false)
  /\ (forall t, text_len t = 1000001%Z -> _is_valid_doc (Some t) = false)
  /\ (forall t, text_len t = 500%Z -> _is_valid_doc (Some t) = true)
  /\ (forall t, text_len t = 1000000%Z -> _is_valid_doc (Some t) = true).
Proof.
  unfold _is_valid_doc, MIN_DOC_LENGTH, MAX_DOC_LENGTH.
  split; [|split; [reflexivity|]].
  - intros [t|]; split.
    + intros H. apply andb_true_iff in H as [H1 H2].
      exists t. split; [reflexivity|lia].
    + intros (t' & [= <-] & H). apply andb_true_iff. lia.
    + discriminate.
    + intros (t' & [=] & _).
  - repeat split; intros t ->; reflexivity.
Qed.

Section Collaborators.

Variable Store : Type.
Variable store_save : json -> M Store unit.
Variable json_loads : string -> outcome json.
Variable int_of : json -> outcome Z.
Variable download_and_unzip : json -> Z -> Z -> outcome bytes.
Variable WARCIterator : bytes -> list warc_record * option exn.
Variable extract : bytes -> outcome (option string).
Variable encode : string -> outcome (list Z).

Local Abbreviation state := (Worker.state Store).
Local Abbreviation try_item :=
  (Worker.try_item Store store_save int_of download_and_unzip WARCIterator extract encode).
Local Abbreviation process_item :=
  (Worker.process_item Store store_save int_of download_and_unzip WARCIterator extract encode).
Local Abbreviation process_record := (Worker.process_record Store store_save extract encode).
Local Abbreviation process_records := (Worker.process_records Store store_save extract encode).
Local Abbreviation process_batch :=
  (Worker.process_batch Store store_save json_loads int_of download_and_unzip WARCIterator
     extract encode).
Local Abbreviation after_items :=
  (Worker.after_items Store store_save int_of download_and_unzip WARCIterator extract encode).
Local Abbreviation keeps_acks := (Worker.keeps_acks Store).

(** The [except] clause turns every outcome of an item into a normal one
    and keeps the state the item reached. *)
Lemma process_item_Ret item st : process_item item st = (Ret tt, snd (try_item item st)).
Proof.
  unfold Worker.process_item, try_except.
  now destruct (try_item item st) as [[[]|e] st'].
Qed.

Lemma items_Ret items st :
  for_each (fun item (_ : unit) => process_item item) items tt st
  = (Ret tt, after_items items st).
Proof.
  revert st. induction items as [|item items IH]; intros st; simpl; [reflexivity|].
  unfold bind. rewrite process_item_Ret. apply IH.
Qed.

(** An item that raises is left behind and the items after it run. *)
Lemma items_continue item rest st e st' :
  try_item item st = (Raise e, st') ->
  for_each (fun item (_ : unit) => process_item item) (item :: rest) tt st
  = for_each (fun item (_ : unit) => process_item item) rest tt st'.
Proof.
  intros H. simpl. unfold bind. now rewrite process_item_Ret, H.
Qed.

Lemma keeps_bind {A B : Type} (m : M state A) (k : A -> M state B) :
  keeps_acks m -> (forall a, keeps_acks (k a)) -> keeps_acks (bind m k).
Proof.
  intros Hm Hk s. unfold bind. specialize (Hm s).
  destruct (m s) as [[a|e] s1]; simpl in *; [|exact Hm].
  now rewrite Hk.
Qed.

Lemma keeps_lift {A : Type} (o : outcome A) : keeps_acks (lift o).
Proof. easy. Qed.

Lemma keeps_for_each {X : Type} (body : X -> unit -> M state unit) xs :
  (forall x u, keeps_acks (body x u)) -> keeps_acks (for_each body xs tt).
Proof.
  intros Hb. induction xs as [|x xs IH]; [easy|].
  simpl. apply keeps_bind; [apply Hb|]. now intros [].
Qed.

Lemma keeps_save doc : keeps_acks (Worker.save Store store_save doc).
Proof. intros s. unfold Worker.save. now destruct (store_save doc (store _ s)). Qed.

Lemma keeps_process_record item record : keeps_acks (process_record item record).
Proof.
  unfold Worker.process_record. destruct (String.eqb _ _); [|easy].
  apply keeps_bind; [apply keeps_lift|]. intros text.
  destruct (negb _); [easy|].
  repeat (apply keeps_bind; [apply keeps_lift|]; intros ?).
  apply keeps_bind; [apply keeps_save|]. easy.
Qed.

Lemma keeps_try_item item : keeps_acks (try_item item).
Proof.
  unfold Worker.try_item.
  apply keeps_bind; [apply keeps_lift|]. intros data.
  apply keeps_bind; [easy|]. intros _.
  unfold Worker.process_records. apply keeps_bind.
  - apply keeps_for_each. intros x u. apply keeps_process_record.
  - intros _. now destruct (snd _).
Qed.

Lemma after_items_acks items st : acks _ (after_items items st) = acks _ st.
Proof.
  revert st. induction items as [|item items IH]; intros st; [reflexivity|].
  unfold Worker.after_items in *. simpl. rewrite IH. apply keeps_try_item.
Qed.

(** An item whose archive range cannot be fetched leaves the state as it
    was. *)
Lemma try_item_fetch_raises item e st :
  Worker.fetch int_of download_and_unzip item = Raise e ->
  try_item item st = (Raise e, st).
Proof.
  intros H. unfold Worker.try_item, bind, lift. now rewrite H.
Qed.

Lemma after_items_app before after st :
  after_items (before ++ after) st = after_items after (after_items before st).
Proof. unfold Worker.after_items. apply fold_left_app. Qed.


End Collaborators.

End WorkerFacts.

(** ** How far a decode error reaches *)

Module ErrorScope.

Lemma process_records_malformed Store store_save extract encode item records e st :
  exists e' st',
    Worker.process_records Store store_save extract encode item (records, Some e) st
    = (Raise e', st').
Proof.
  unfold Worker.process_records, bind. simpl.
  destruct (for_each _ records tt st) as [[[]|e1] st1]; unfold raise; eauto.
Qed.

(** C3 (as amended): on the consumer side a WARC iterator that ends with
    a decode error makes the record loop of that item raise, and an item
    that raises is turned into a normal end of its round, so that the
    remaining items of the batch run from the state it left.  On the
    producer side the decode error of a line whose metadata is not JSON
    leaves [process_index]: the run ends there with that exception, counts
    the line as seen, and neither reads the lines and index rows after it
    nor publishes the pending batch. *)
Theorem decode_error_scope :
  (forall Store store_save int_of download_and_unzip WARCIterator extract encode,
      (forall item records e st,
          exists e' st',
            Worker.process_records Store store_save extract encode item (records, Some e) st
            = (Raise e', st'))
      /\ (forall item rest st e st',
             Worker.try_item Store store_save int_of download_and_unzip WARCIterator
               extract encode item st = (Raise e, st') ->
             let process_item :=
               Worker.process_item Store store_save int_of download_and_unzip WARCIterator
                 extract encode in
             process_item item st = (Ret tt, st')
             /\ for_each (fun item (_ : unit) => process_item item) (item :: rest) tt st
                = for_each (fun item (_ : unit) => process_item item) rest tt st'))
  /\ (forall json_loads int_of_str download_and_unzip decode_utf8 basic_publish
             bs rows_before row rows_after data before bad after found0 st0 found1 st1 st e,
         let process_line := Batcher.process_line json_loads basic_publish bs in
         let process_chunk :=
           Batcher.process_chunk json_loads int_of_str download_and_unzip decode_utf8
             basic_publish bs in
         for_each process_chunk rows_before [] st = (Ret found0, st0) ->
         Batcher.fetch int_of_str download_and_unzip decode_utf8 row = Ret data ->
         split "010" data = before ++ bad :: after ->
         for_each process_line before found0 st0 = (Ret found1, st1) ->
         bad <> "" ->
         json_loads (Batcher.metadata_text bad) = Raise e ->
         Batcher.process_index json_loads int_of_str download_and_unzip decode_utf8
           basic_publish (rows_before ++ row :: rows_after) bs st
         = (Raise e, Batcher.inc_docs_seen st1)).
Proof.
  split.
  - intros Store store_save int_of download_and_unzip WARCIterator extract encode. split.
    + intros item records e st. apply process_records_malformed.
    + intros item rest st e st' H process_item. split.
      * unfold process_item. rewrite WorkerFacts.process_item_Ret. now rewrite H.
      * unfold process_item. eapply WorkerFacts.items_continue. exact H.
  - intros. eapply BatcherFacts.process_index_abort; eauto.
Qed.

End ErrorScope.

(** ** Worked examples *)

Module Examples.
Import Fixture.

Local Open Scope Z_scope.

(** One qualifying line: its batch of one record is published twice. *)
Example one_line_published_twice :
  run_batcher line_a
  = (Ret tt, Batcher.mkState [[record_a]; [record_a]] 2 1 1 2).
Proof. vm_compute. reflexivity. Qed.

Lemma final_flush_publishes_twice_witness :
  Batcher.final_flush accept_all [record_a] Batcher.init
  = (Ret tt, Batcher.mkState [[record_a]; [record_a]] 2 0 0 2).
Proof.
  apply (BatcherFacts.final_flush_publishes_twice accept_all [record_a] Batcher.init).
  - reflexivity.
  - discriminate.
Defined.

Lemma remainder_is_published_twice_witness :
  exists full rest,
    [[record_a]; [record_a]]
    = [] ++ full ++ match rest with [] => [] | _ => [rest; rest] end
    /\ Forall (fun batch => Z.of_nat (length batch) = Batcher.BATCH_SIZE) full
    /\ Z.of_nat (length rest) < Batcher.BATCH_SIZE
    /\ concat full ++ rest
       = flat_map (Batcher.accepted_chunk json_loads int_of_str (serve line_a) decode_utf8)
                  [row].
Proof.
  apply (BatcherFacts.remainder_is_published_twice json_loads int_of_str (serve line_a)
           decode_utf8 accept_all [row] Batcher.init
           (Batcher.mkState [[record_a]; [record_a]] 2 1 1 2)).
  vm_compute. reflexivity.
Defined.


(** The run on the three lines returns, with the first and third records
    in its batches. *)
Example three_lines_run :
  run_batcher three_lines
  = (Ret tt, Batcher.mkState [[record_a; record_b]; [record_a; record_b]] 2 3 2 4).
Proof. vm_compute. reflexivity. Qed.


(** Languages given as one text are searched for ["eng"], so a text that
    holds it inside a longer word qualifies; given as a list they are
    compared element by element. *)
Example languages_text_is_searched :
  Batcher.accept (JObj [("status", JStr "200"); ("languages", JStr "bengali")]) = Ret true
  /\ Batcher.qualifies (JObj [("status", JStr "200"); ("languages", JStr "bengali")]) = true
  /\ Batcher.qualifies (JObj [("status", JStr "200"); ("languages", JStr "fra,eng")]) = true
  /\ Batcher.qualifies (JObj [("status", JStr "200"); ("languages", JArr [JStr "bengali"])])
     = false
  /\ Batcher.qualifies (JObj [("status", JStr "200"); ("languages", JStr "ENG")]) = false
  /\ Batcher.qualifies (JObj [("status", JInt 200); ("languages", JStr "eng")]) = false.
Proof. repeat split; vm_compute; reflexivity. Qed.

(** A malformed line between two qualifying ones: the run ends at it, the
    third line is not read and nothing is published; without it the two
    records go out. *)
Lemma malformed_line_aborts_run :
  run_batcher interrupted
  = (Raise JSONDecodeError, Batcher.mkState [] 0 2 1 0)
  /\ run_batcher (line_a ++ nl ++ line_b)
     = (Ret tt, Batcher.mkState [[record_a; record_b]; [record_a; record_b]] 2 2 2 4).
Proof. split; vm_compute; reflexivity. Qed.

Lemma basic_publish_gives_up_witness :
  RabbitMQ.basic_publish string always_closed reconnects payload (RabbitMQ.init string)
  = Some (Raise (RuntimeError "Failed to publish after 3 retries"),
          RabbitMQ.mkState [] 1 [5] 1).
Proof.
  apply (RabbitMQFacts.basic_publish_gives_up_after_one_attempt string always_closed
           reconnects payload (RabbitMQ.init string) (Pika ConnectionClosed));
    reflexivity.
Defined.

Lemma basic_publish_auth_error_witness :
  RabbitMQ.basic_publish string refuses_credentials reconnects payload (RabbitMQ.init string)
  = Some (Raise (Pika ProbableAuthenticationError), RabbitMQ.mkState [] 1 [] 0).
Proof.
  apply (RabbitMQFacts.basic_publish_auth_error_is_fatal string refuses_credentials
           reconnects payload (RabbitMQ.init string) (Pika ProbableAuthenticationError)).
  - right; left; reflexivity.
  - reflexivity.
Defined.

Example key_at_noon : ObjectStore.key noon = "2024-07-22/1721649600500.jsonl"%string.
Proof. vm_compute. reflexivity. Qed.

Lemma save_same_millisecond_witness :
  ObjectStore.key noon = ObjectStore.key noon_again
  /\ bind (ObjectStore.save json dumps ObjectStore.always noon (JStr "first"))
          (fun _ => ObjectStore.save json dumps ObjectStore.always noon_again (JStr "second"))
          ∅
     = (Ret tt,
        <[ObjectStore.key noon := ObjectStore.line_of json dumps (JStr "second")]> ∅)
  /\ ((∅ : gmap string string) !! ObjectStore.key noon = None ->
      size (snd (bind (ObjectStore.save json dumps ObjectStore.always noon (JStr "first"))
                      (fun _ => ObjectStore.save json dumps ObjectStore.always noon_again
                                  (JStr "second"))
                      ∅))
      = S (size (∅ : gmap string string))).
Proof.
  apply (ObjectStoreFacts.save_same_millisecond_overwrites json dumps noon noon_again
           (JStr "first") (JStr "second") ∅); reflexivity.
Defined.

(** A batch of three items, the second of which cannot be fetched: the
    documents of the first and third are stored, the second leaves nothing,
    and the delivery is acknowledged once. *)
Example second_item_fails :
  let st := snd (run_worker 7 [item_1; item_2; item_3]) in
  fst (run_worker 7 [item_1; item_2; item_3]) = Ret tt
  /\ Worker.acks _ st = [7]
  /\ Worker.docs_received _ st = 3%nat
  /\ Worker.docs_processed _ st = 2%nat
  /\ map fst (map_to_list (ObjectStore.objects (Worker.store _ st)))
     ≡ₚ ["2024-07-22/1721649600500.jsonl"; "2024-07-22/1721649600540.jsonl"]%string.
Proof. vm_compute. repeat split. apply Permutation_swap. Qed.


(** The garbled archive range of the second item ends that item only, and
    the malformed line ends the whole run of the batcher. *)
Lemma decode_error_scope_witness :
  (let process_item :=
     Worker.process_item _ store_save int_of download warc_iterator extract encode in
   process_item item_garbled worker_init
   = (Ret tt, Worker.inc_bytes_downloaded _ 17 worker_init)
   /\ for_each (fun item (_ : unit) => process_item item) [item_garbled; item_3] tt worker_init
      = for_each (fun item (_ : unit) => process_item item) [item_3] tt
          (Worker.inc_bytes_downloaded _ 17 worker_init))
  /\ Batcher.process_index json_loads int_of_str (serve interrupted) decode_utf8 accept_all
       ([] ++ row :: []) Batcher.BATCH_SIZE Batcher.init
     = (Raise JSONDecodeError, Batcher.inc_docs_seen (Batcher.mkState [] 0 1 1 0)).
Proof.
  split.
  - apply (proj2 (proj1 ErrorScope.decode_error_scope _ store_save int_of download
                    warc_iterator extract encode)
             item_garbled [item_3] worker_init (OtherException "ArchiveLoadFailed")).
    vm_compute. reflexivity.
  - apply (proj2 ErrorScope.decode_error_scope json_loads int_of_str (serve interrupted)
             decode_utf8 accept_all Batcher.BATCH_SIZE [] row [] interrupted
             [line_a] line_malformed [line_b] [] Batcher.init [record_a]
             (Batcher.mkState [] 0 1 1 0) Batcher.init JSONDecodeError).
    + reflexivity.
    + vm_compute. reflexivity.
    + vm_compute. reflexivity.
    + vm_compute. reflexivity.
    + discriminate.
    + vm_compute. reflexivity.
Defined.

Lemma published_batches_bounded_witness :
  exists new,
    [[record_a; record_b]; [record_a; record_b]] = [] ++ new
    /\ Forall (fun batch => 1 <= Z.of_nat (length batch) <= Batcher.BATCH_SIZE) new
    /\ (new = []
        <-> flat_map (Batcher.accepted_chunk json_loads int_of_str (serve three_lines)
                        decode_utf8) [row] = []).
Proof.
  apply (BatcherFacts.published_batches_bounded json_loads int_of_str (serve three_lines)
           decode_utf8 accept_all [row] Batcher.BATCH_SIZE Batcher.init
           (Batcher.mkState [[record_a; record_b]; [record_a; record_b]] 2 3 2 4)).
  - vm_compute. reflexivity.
  - reflexivity.
Defined.

Lemma save_distinct_milliseconds_witness :
  ObjectStore.key noon <> ObjectStore.key (clock_at 1)
  /\ size (snd (bind (ObjectStore.save json dumps ObjectStore.always noon (JStr "first"))
                     (fun _ => ObjectStore.save json dumps ObjectStore.always (clock_at 1)
                                 (JStr "second"))
                     ∅))
     = S (S (size (∅ : gmap string string))).
Proof.
  apply (ObjectStoreFacts.save_distinct_milliseconds json dumps noon (clock_at 1)
           (JStr "first") (JStr "second") ∅).
  - reflexivity.
  - discriminate.
  - reflexivity.
  - reflexivity.
Defined.

(** The four boundary lengths of the document filter. *)
Example length_band_boundaries :
  Worker._is_valid_doc (Some (replicate 499 "a")) = false
  /\ Worker._is_valid_doc (Some (replicate 500 "a")) = true
  /\ Worker._is_valid_doc (Some (replicate (Z.to_nat 1000000) "a")) = true
  /\ Worker._is_valid_doc (Some (replicate (Z.to_nat 1000001) "a")) = false.
Proof. vm_compute. repeat split. Qed.

(** The examples of the spec for the acceptance test, and two mappings
    without ["status"]. *)
Example accept_examples :
  Batcher.accept md_eng_fra_200 = Ret true
  /\ Batcher.accept md_eng_404 = Ret false
  /\ Batcher.accept md_fra_200 = Ret false
  /\ Batcher.accept_traced md_no_languages = (Ret false, [Batcher.Contains "languages"])
  /\ Batcher.accept md_eng_no_status = Raise (KeyError "status").
Proof. vm_compute. repeat split. Qed.

End Examples.

(** ** Texts, dates and object keys *)

Module TextFacts.
Import Text.

Lemma occurs_append c s t : occurs c (s ++ t) = occurs c s || occurs c t.
Proof. induction s as [|a s IH]; simpl; [reflexivity|]. now rewrite IH, orb_assoc. Qed.

(** Two texts cut at the first occurrence of a separator agree part by part. *)
Lemma cut_inj sep s s' t t' :
  occurs sep s = false -> occurs sep s' = false ->
  (s ++ String sep t = s' ++ String sep t')%string -> s = s' /\ t = t'.
Proof.
  revert s'. induction s as [|a s IH]; intros [|a' s']; simpl.
  - intros _ _ [= ->]. auto.
  - intros _ H [= <- _]. rewrite Ascii.eqb_refl in H. discriminate.
  - intros H _ [= -> _]. rewrite Ascii.eqb_refl in H. discriminate.
  - intros H H' [= -> Heq].
    apply orb_false_iff in H as [_ H]. apply orb_false_iff in H' as [_ H'].
    destruct (IH s' H H' Heq) as [-> ->]. auto.
Qed.

Lemma digits_of_uint c d : occurs c (NilEmpty.string_of_uint d) = true -> digit c = true.
Proof.
  induction d; cbn [NilEmpty.string_of_uint occurs]; try discriminate;
    (intros H; apply orb_true_iff in H as [H|H]; [|auto];
     apply Ascii.eqb_eq in H; subst c; reflexivity).
Qed.

Lemma to_uint_string n :
  NilZero.string_of_uint (Nat.to_uint n) = NilEmpty.string_of_uint (Nat.to_uint n).
Proof.
  destruct (Nat.to_uint n) eqn:E; try reflexivity.
  exfalso. pose proof (DecimalNat.Unsigned.of_to n) as H. rewrite E in H.
  simpl in H. subst n. discriminate.
Qed.

Lemma value_zero s n : value s = Some n -> value (String "0" s) = Some n.
Proof.
  unfold value. cbn [NilEmpty.uint_of_string].
  destruct (NilEmpty.uint_of_string s) as [d|]; [|discriminate].
  intros [= <-]. reflexivity.
Qed.

Lemma value_decimal n : value (ObjectStore.decimal n) = Some n.
Proof.
  unfold value, ObjectStore.decimal. rewrite to_uint_string, NilEmpty.usu.
  now rewrite DecimalNat.Unsigned.of_to.
Qed.

Lemma value_pad w n : value (ObjectStore.pad w n) = Some n.
Proof.
  unfold ObjectStore.pad.
  induction (w - String.length (ObjectStore.decimal n))%nat as [|k IH]; simpl.
  - apply value_decimal.
  - now apply value_zero.
Qed.

Lemma pad_inj w n n' : ObjectStore.pad w n = ObjectStore.pad w n' -> n = n'.
Proof.
  intros H. pose proof (value_pad w n) as Hn. rewrite H, value_pad in Hn. congruence.
Qed.

Lemma digits_of_zeros c k : occurs c (ObjectStore.zeros k) = true -> digit c = true.
Proof.
  induction k as [|k IH]; cbn [ObjectStore.zeros occurs]; [discriminate|].
  intros H. apply orb_true_iff in H as [H|H]; [|auto].
  apply Ascii.eqb_eq in H. now subst c.
Qed.

Lemma digits_of_pad c w n : occurs c (ObjectStore.pad w n) = true -> digit c = true.
Proof.
  unfold ObjectStore.pad. rewrite occurs_append. intros H.
  apply orb_true_iff in H as [H|H].
  - eapply digits_of_zeros, H.
  - unfold ObjectStore.decimal in H. rewrite to_uint_string in H.
    eapply digits_of_uint, H.
Qed.

Lemma pad_free c w n : digit c = false -> occurs c (ObjectStore.pad w n) = false.
Proof.
  intros Hc. destruct (occurs c (ObjectStore.pad w n)) eqn:E; [|reflexivity].
  apply digits_of_pad in E. congruence.
Qed.

Lemma isoformat_inj d d' : ObjectStore.isoformat d = ObjectStore.isoformat d' -> d = d'.
Proof.
  destruct d as [y m dd], d' as [y' m' dd']. unfold ObjectStore.isoformat. simpl.
  intros H.
  apply (cut_inj "-") in H as [Hy H]; try (now apply pad_free).
  apply (cut_inj "-") in H as [Hm Hd]; try (now apply pad_free).
  apply pad_inj in Hy, Hm, Hd. now subst.
Qed.

Lemma isoformat_free c d :
  digit c = false -> c <> "-"%char -> occurs c (ObjectStore.isoformat d) = false.
Proof.
  intros Hc Hm. unfold ObjectStore.isoformat.
  rewrite !occurs_append, !pad_free by exact Hc. cbn [occurs orb].
  assert (Ascii.eqb "-" c = false) as -> by (apply Ascii.eqb_neq; congruence).
  reflexivity.
Qed.

(** The key names the date and the millisecond without loss: two calls of
    [save] build the same key only if they read the same UTC date and the
    same millisecond. *)
Theorem key_injective c c' : ObjectStore.key c = ObjectStore.key c' -> c = c'.
Proof.
  destruct c as [d t], c' as [d' t']. unfold ObjectStore.key. simpl. intros H.
  apply (cut_inj "/") in H as [Hd Ht]; try (now apply isoformat_free).
  apply isoformat_inj in Hd. apply ObjectStoreFacts.append_cancel_r in Ht.
  apply ObjectStoreFacts.str_of_int_inj in Ht. now subst.
Qed.

End TextFacts.

(** ** Relations kept by every step *)

Module EffectsFacts.
Import Effects.

Section Generic.
Context {S : Type} (R : S -> S -> Prop).
Hypothesis R_refl : forall s, R s s.
Hypothesis R_trans : forall s1 s2 s3, R s1 s2 -> R s2 s3 -> R s1 s3.

Lemma steps_ret {A : Type} (a : A) : steps R (ret a).
Proof. intros s. apply R_refl. Qed.

Lemma steps_lift {A : Type} (o : outcome A) : steps R (lift o).
Proof. intros s. apply R_refl. Qed.

Lemma steps_modify (f : S -> S) : (forall s, R s (f s)) -> steps R (modify f).
Proof. intros H s. apply H. Qed.

Lemma steps_bind {A B : Type} (m : M S A) (k : A -> M S B) :
  steps R m -> (forall a, steps R (k a)) -> steps R (bind m k).
Proof.
  intros Hm Hk s. unfold bind. specialize (Hm s).
  destruct (m s) as [[a|e] s1]; simpl in *; [|exact Hm].
  eapply R_trans; [exact Hm|apply Hk].
Qed.

Lemma steps_for_each {A X : Type} (body : X -> A -> M S A) xs acc :
  (forall x a, steps R (body x a)) -> steps R (for_each body xs acc).
Proof.
  intros Hb. revert acc. induction xs as [|x xs IH]; intros acc; simpl.
  - apply steps_ret.
  - apply steps_bind; [apply Hb|]. intros a. apply IH.
Qed.

End Generic.

(** A loop whose rounds, when they return, raise a measure of the state by
    the length of what the round contributes. *)
Lemma for_each_count {S A X Y : Type} (f : S -> nat) (ext : X -> list Y)
    (body : X -> A -> M S A) :
  (forall x a s a' s', body x a s = (Ret a', s') -> f s' = f s + length (ext x)) ->
  forall xs a s a' s',
    for_each body xs a s = (Ret a', s') -> f s' = f s + length (flat_map ext xs).
Proof.
  intros Hb. induction xs as [|x xs IH]; intros a s a' s'; simpl.
  - intros [= _ <-]. lia.
  - unfold bind. destruct (body x a s) as [[a1|e] s1] eqn:H1; [|discriminate].
    intros H2. apply Hb in H1. apply IH in H2. rewrite length_app. lia.
Qed.

End EffectsFacts.

(** ** The counters of the batcher *)

Module MetricsFacts.
Import Batcher Effects EffectsFacts Metrics.

Lemma counted_refl st : counted st st.
Proof. exists []. rewrite app_nil_r. simpl. repeat split; lia. Qed.

Lemma counted_trans s1 s2 s3 : counted s1 s2 -> counted s2 s3 -> counted s1 s3.
Proof.
  intros (n1 & Hp1 & Hb1 & Hs1 & Hn1 & Hf1) (n2 & Hp2 & Hb2 & Hs2 & Hn2 & Hf2).
  exists (n1 ++ n2). rewrite concat_app, !length_app.
  repeat split; try lia. now rewrite Hp2, Hp1, app_assoc.
Qed.

Section Run.

Variable json_loads : string -> outcome json.
Variable int_of_str : string -> outcome Z.
Variable download_and_unzip : string -> Z -> Z -> outcome bytes.
Variable decode_utf8 : bytes -> outcome string.
Variable basic_publish : list (list json) -> list json -> option exn.

Local Abbreviation publish_batch := (Batcher.publish_batch basic_publish).
Local Abbreviation fetch := (Batcher.fetch int_of_str download_and_unzip decode_utf8).
Local Abbreviation flush_if_full := (Batcher.flush_if_full basic_publish).
Local Abbreviation process_line := (Batcher.process_line json_loads basic_publish).
Local Abbreviation process_chunk :=
  (Batcher.process_chunk json_loads int_of_str download_and_unzip decode_utf8 basic_publish).
Local Abbreviation process_index :=
  (Batcher.process_index json_loads int_of_str download_and_unzip decode_utf8 basic_publish).
Local Abbreviation final_flush := (Batcher.final_flush basic_publish).
Local Abbreviation accepted_line := (Batcher.accepted_line json_loads).
Local Abbreviation accepted_chunk :=
  (Batcher.accepted_chunk json_loads int_of_str download_and_unzip decode_utf8).
Local Abbreviation seen_chunk := (Metrics.seen_chunk int_of_str download_and_unzip decode_utf8).

(** Lines 75-76 and 80-81, 84-85: a publish together with the count that
    follows it. *)
Lemma publish_and_count batch :
  steps counted (bind (publish_batch batch) (fun _ => modify (inc_docs_sent (length batch)))).
Proof.
  intros st. unfold bind, modify, Batcher.publish_batch.
  destruct (basic_publish (published st) batch); simpl; [apply counted_refl|].
  exists [batch]. simpl. rewrite app_nil_r. repeat split; lia.
Qed.

Lemma flush_if_full_counted bs found : steps counted (flush_if_full bs found).
Proof.
  unfold Batcher.flush_if_full. destruct (_ >=? _)%Z.
  - intros st. pose proof (publish_and_count found st) as H. revert H.
    unfold bind, modify, ret.
    now destruct (publish_batch found st) as [[[]|e] st1].
  - apply steps_ret, counted_refl.
Qed.

Lemma counted_seen st : counted st (inc_docs_seen st).
Proof. exists []. simpl. rewrite app_nil_r. repeat split; lia. Qed.

Lemma counted_filtered st : counted st (inc_docs_filtered st).
Proof. exists []. simpl. rewrite app_nil_r. repeat split; lia. Qed.

Lemma process_line_counted bs line found : steps counted (process_line bs line found).
Proof.
  pose proof counted_refl as Hr. pose proof counted_trans as Ht.
  unfold Batcher.process_line. destruct (String.eqb line ""); [now apply steps_ret|].
  apply steps_bind; [exact Ht|apply steps_modify, counted_seen|]. intros _.
  apply steps_bind; [exact Ht|now apply steps_lift|]. intros metadata.
  apply steps_bind; [exact Ht|now apply steps_lift|]. intros ok.
  apply steps_bind; [exact Ht| |intros f; apply flush_if_full_counted].
  destruct ok; [|now apply steps_ret].
  apply steps_bind; [exact Ht|apply steps_modify, counted_filtered|]. intros _.
  apply steps_bind; [exact Ht|now apply steps_lift|]. intros surt_url.
  apply steps_bind; [exact Ht|now apply steps_lift|]. intros timestamp.
  now apply steps_ret.
Qed.

Lemma process_chunk_counted bs cdx_chunk found :
  steps counted (process_chunk bs cdx_chunk found).
Proof.
  unfold Batcher.process_chunk.
  apply steps_bind; [exact counted_trans|apply steps_lift, counted_refl|]. intros data.
  apply steps_for_each; [exact counted_refl|exact counted_trans|].
  intros x a. apply process_line_counted.
Qed.

Lemma final_flush_counted found : steps counted (final_flush found).
Proof.
  unfold Batcher.final_flush.
  apply steps_bind; [exact counted_trans| |intros _].
  - destruct (truthy found); [apply publish_and_count|apply steps_ret, counted_refl].
  - destruct (0 <? length found)%nat; [apply publish_and_count|apply steps_ret, counted_refl].
Qed.

(** A returning round of the line loop counts the line as seen when it is
    not empty and as filtered when it is accepted. *)
Lemma flush_if_full_keeps bs found found' st st' :
  flush_if_full bs found st = (Ret found', st') ->
  batcher_docs_seen st' = batcher_docs_seen st
  /\ batcher_docs_filtered st' = batcher_docs_filtered st.
Proof.
  unfold Batcher.flush_if_full. destruct (_ >=? _)%Z; [|now intros [= _ <-]].
  unfold bind, modify, ret, Batcher.publish_batch.
  destruct (basic_publish _ _); [discriminate|]. now intros [= _ <-].
Qed.

Lemma process_line_tally bs line found found' st st' :
  process_line bs line found st = (Ret found', st') ->
  batcher_docs_seen st' = batcher_docs_seen st + length (seen_line line)
  /\ batcher_docs_filtered st' = batcher_docs_filtered st + length (accepted_line line).
Proof.
  unfold Batcher.process_line, Batcher.accepted_line, seen_line, metadata_text.
  destruct (String.eqb line ""); [intros [= _ <-]; simpl; lia|].
  unfold bind, modify, lift, ret.
  destruct (json_loads _) as [metadata|e]; [|discriminate].
  destruct (accept metadata) as [ok|e] eqn:Hok; [|discriminate].
  apply BatcherFacts.accept_Ret in Hok. rewrite <- Hok.
  destruct ok.
  - destruct (index (split " " line) 0); [|discriminate].
    destruct (index (split " " line) 1); [|discriminate].
    intros H. apply flush_if_full_keeps in H as [-> ->]. simpl. lia.
  - intros H. apply flush_if_full_keeps in H as [-> ->]. simpl. lia.
Qed.

Lemma process_chunk_tally bs cdx_chunk found found' st st' :
  process_chunk bs cdx_chunk found st = (Ret found', st') ->
  batcher_docs_seen st' = batcher_docs_seen st + length (seen_chunk cdx_chunk)
  /\ batcher_docs_filtered st' = batcher_docs_filtered st + length (accepted_chunk cdx_chunk).
Proof.
  unfold Batcher.process_chunk, Batcher.accepted_chunk, Metrics.seen_chunk, bind, lift.
  destruct (fetch cdx_chunk) as [data|e]; [|discriminate].
  intros H. split.
  - eapply (for_each_count batcher_docs_seen seen_line); [|exact H].
    intros x a s a' s' Hx. now apply process_line_tally in Hx.
  - eapply (for_each_count batcher_docs_filtered accepted_line); [|exact H].
    intros x a s a' s' Hx. now apply process_line_tally in Hx.
Qed.

Lemma final_flush_keeps found st st' :
  final_flush found st = (Ret tt, st') ->
  batcher_docs_seen st' = batcher_docs_seen st
  /\ batcher_docs_filtered st' = batcher_docs_filtered st.
Proof.
  unfold Batcher.final_flush, bind, modify, ret, Batcher.publish_batch.
  destruct found as [|r found]; simpl; [now intros [= <-]|].
  destruct (basic_publish _ _); [discriminate|]. simpl.
  destruct (basic_publish _ _); [discriminate|]. now intros [= <-].
Qed.

(** The counters of the batcher agree with the queue, however the run ends:
    [batch_counter] goes up by the number of batches published and
    [batcher_docs_sent] by the number of records in them, the batch that the
    final flush sends twice counting twice; and when the run returns,
    [batcher_docs_seen] has gone up by the number of non-empty lines and
    [batcher_docs_filtered] by the number of accepted records. *)
Theorem counters_agree_with_queue lines bs st :
  counted st (snd (process_index lines bs st))
  /\ (fst (process_index lines bs st) = Ret tt ->
      batcher_docs_seen (snd (process_index lines bs st))
      = batcher_docs_seen st + length (flat_map seen_chunk lines)
      /\ batcher_docs_filtered (snd (process_index lines bs st))
         = batcher_docs_filtered st + length (flat_map accepted_chunk lines)).
Proof.
  split.
  - revert st. change (steps counted (process_index lines bs)).
    unfold Batcher.process_index.
    apply steps_bind; [exact counted_trans| |intros f; apply final_flush_counted].
    apply steps_for_each; [exact counted_refl|exact counted_trans|].
    intros x a. apply process_chunk_counted.
  - unfold Batcher.process_index, bind.
    destruct (for_each _ lines [] st) as [[found|e] st1] eqn:H1; [|discriminate].
    destruct (final_flush found st1) as [[[]|e] st2] eqn:H2; [|discriminate].
    intros _. simpl. apply final_flush_keeps in H2 as [-> ->]. split.
    + eapply (for_each_count batcher_docs_seen seen_chunk); [|exact H1].
      intros x a s a' s' Hx. now apply process_chunk_tally in Hx.
    + eapply (for_each_count batcher_docs_filtered accepted_chunk); [|exact H1].
      intros x a s a' s' Hx. now apply process_chunk_tally in Hx.
Qed.

End Run.
End MetricsFacts.

(** ** Lines, rows and batch sizes at the edges *)

Module LineFacts.
Import Batcher Text TextFacts LineDefs.

Lemma split_cut sep a t :
  occurs sep a = false -> split sep (a ++ String sep t) = a :: split sep t.
Proof.
  induction a as [|x a IH]; simpl.
  - intros _. now rewrite Ascii.eqb_refl.
  - intros H. apply orb_false_iff in H as [Hx Ha]. rewrite Hx, (IH Ha). reflexivity.
Qed.

Lemma split_free sep a : occurs sep a = false -> split sep a = [a].
Proof.
  induction a as [|x a IH]; simpl; [reflexivity|].
  intros H. apply orb_false_iff in H as [Hx Ha]. now rewrite Hx, (IH Ha).
Qed.

Lemma split_nonempty sep s : split sep s <> [].
Proof.
  destruct s as [|x s]; simpl; [discriminate|].
  destruct (Ascii.eqb x sep); [discriminate|]. now destruct (split sep s).
Qed.

Lemma join_cons_char x w ws : join (String x w :: ws) = String x (join (w :: ws)).
Proof. unfold join. now destruct ws. Qed.

Lemma join_cons_empty ws : ws <> [] -> join ("" :: ws) = join ws.
Proof. unfold join. now destruct ws. Qed.

(** ["".join(s.split(c))] is [s] without its [c]s. *)
Lemma join_split sep s : join (split sep s) = remove sep s.
Proof.
  induction s as [|x s IH]; simpl; [reflexivity|].
  destruct (Ascii.eqb x sep).
  - rewrite join_cons_empty by apply split_nonempty. exact IH.
  - pose proof (split_nonempty sep s) as Hne.
    destruct (split sep s) as [|w ws]; [contradiction|].
    now rewrite join_cons_char, IH.
Qed.

Lemma occurs_remove sep s : occurs sep (remove sep s) = false.
Proof.
  induction s as [|x s IH]; simpl; [reflexivity|].
  destruct (Ascii.eqb x sep) eqn:E; [exact IH|]. simpl. now rewrite E, IH.
Qed.

Lemma split_fields_free sep s : Forall (fun w => occurs sep w = false) (split sep s).
Proof.
  induction s as [|x s IH]; simpl; [now repeat constructor|].
  destruct (Ascii.eqb x sep) eqn:E; [now constructor|].
  destruct (split sep s) as [|w ws]; [now repeat constructor; simpl; rewrite E|].
  inversion IH as [|? ? Hw Hws]; subst. constructor; [|exact Hws].
  simpl. now rewrite E, Hw.
Qed.

Lemma join_free sep ws :
  Forall (fun w => occurs sep w = false) ws -> occurs sep (join ws) = false.
Proof.
  unfold join. induction 1 as [|w ws Hw Hws IH]; [reflexivity|].
  destruct ws as [|w' ws']; [exact Hw|].
  cbn [String.concat]. rewrite !occurs_append, Hw. simpl. exact IH.
Qed.

Lemma Forall_skipn {A : Type} (P : A -> Prop) n (xs : list A) :
  Forall P xs -> Forall P (skipn n xs).
Proof.
  revert xs. induction n as [|n IH]; intros xs H; [exact H|].
  destruct H; [constructor|]. now apply IH.
Qed.

Lemma metadata_text_short a b :
  occurs " " a = false ->
  occurs " " b = false ->
  metadata_text a = "" /\ metadata_text (a ++ " " ++ b) = "".
Proof.
  intros Ha Hb. unfold metadata_text. rewrite (split_free " " a Ha).
  change (a ++ " " ++ b)%string with (a ++ String " " b)%string.
  now rewrite split_cut, (split_free " " b Hb).
Qed.

(** The text that line 67 hands to [json.loads] holds no space: it is what
    follows the second space of the line, with every space taken out, also
    those inside JSON strings; and a line of fewer than three fields hands
    over the empty text. *)
Theorem metadata_text_drops_spaces a b rest :
  occurs " " a = false ->
  occurs " " b = false ->
  metadata_text (a ++ " " ++ b ++ " " ++ rest) = remove " " rest
  /\ (forall metadata,
         record_of (a ++ " " ++ b ++ " " ++ rest) metadata = record a b metadata)
  /\ (forall line, occurs " " (metadata_text line) = false)
  /\ metadata_text a = ""
  /\ metadata_text (a ++ " " ++ b) = "".
Proof.
  intros Ha Hb.
  assert (split " " (a ++ " " ++ b ++ " " ++ rest) = a :: b :: split " " rest) as Hs.
  { change (a ++ " " ++ b ++ " " ++ rest)%string
      with (a ++ String " " (b ++ String " " rest))%string.
    now rewrite !split_cut. }
  split; [|split; [|split]].
  - unfold metadata_text. rewrite Hs. apply join_split.
  - intros metadata. unfold record_of. now rewrite Hs.
  - intros line. apply join_free, Forall_skipn, split_fields_free.
  - now apply metadata_text_short.
Qed.

Section Run.

Variable json_loads : string -> outcome json.
Variable int_of_str : string -> outcome Z.
Variable download_and_unzip : string -> Z -> Z -> outcome bytes.
Variable decode_utf8 : bytes -> outcome string.
Variable basic_publish : list (list json) -> list json -> option exn.

Local Abbreviation publish_batch := (Batcher.publish_batch basic_publish).
Local Abbreviation fetch := (Batcher.fetch int_of_str download_and_unzip decode_utf8).
Local Abbreviation flush_if_full := (Batcher.flush_if_full basic_publish).
Local Abbreviation process_line := (Batcher.process_line json_loads basic_publish).
Local Abbreviation process_chunk :=
  (Batcher.process_chunk json_loads int_of_str download_and_unzip decode_utf8 basic_publish).
Local Abbreviation process_index :=
  (Batcher.process_index json_loads int_of_str download_and_unzip decode_utf8 basic_publish).
Local Abbreviation accepted_line := (Batcher.accepted_line json_loads).
Local Abbreviation accepted_chunk :=
  (Batcher.accepted_chunk json_loads int_of_str download_and_unzip decode_utf8).
Local Abbreviation line_batches := (LineDefs.line_batches json_loads).
Local Abbreviation chunk_batches :=
  (LineDefs.chunk_batches json_loads int_of_str download_and_unzip decode_utf8).

(** A non-empty line of fewer than three space-separated fields ends the
    run when [json.loads] refuses the empty text, as it does. *)
Theorem short_line_aborts bs a b line found st e :
  occurs " " a = false ->
  occurs " " b = false ->
  line = a \/ line = (a ++ " " ++ b)%string ->
  line <> "" ->
  json_loads "" = Raise e ->
  process_line bs line found st = (Raise e, inc_docs_seen st).
Proof.
  intros Ha Hb Hline Hne Hloads.
  apply BatcherFacts.process_line_malformed; [exact Hne|].
  destruct (metadata_text_short a b Ha Hb) as [H1 H2].
  destruct Hline as [->| ->]; now rewrite ?H1, ?H2.
Qed.

(** An index row of fewer than four fields ends the run before anything is
    downloaded: the exception depends on the row alone. *)
Theorem short_row_aborts cdx_chunk :
  (length cdx_chunk < 4)%nat ->
  exists e,
    forall download decode loads publish bs found st,
      Batcher.process_chunk loads int_of_str download decode publish bs cdx_chunk found st
      = (Raise e, st).
Proof.
  intros Hlen. unfold Batcher.process_chunk, bind, lift, Batcher.fetch, index.
  destruct cdx_chunk as [|f0 [|f1 [|f2 [|f3 more]]]]; simpl in *; try lia.
  - now exists IndexError.
  - now exists IndexError.
  - now exists IndexError.
  - destruct (int_of_str f2) as [start|e]; [now exists IndexError|now exists e].
Qed.

(** With a batch size that is not positive the size check passes after
    every non-empty line. *)
Lemma process_line_nonpositive bs line st found' st' :
  (bs <= 0)%Z ->
  process_line bs line [] st = (Ret found', st') ->
  found' = [] /\ published st' = published st ++ line_batches line.
Proof.
  intros Hbs. unfold Batcher.process_line, LineDefs.line_batches, Batcher.accepted_line,
    metadata_text.
  destruct (String.eqb line ""); [intros [= <- <-]; now rewrite app_nil_r|].
  unfold bind, modify, lift, ret.
  destruct (json_loads _) as [metadata|e]; [|discriminate].
  destruct (accept metadata) as [ok|e] eqn:Hok; [|discriminate].
  apply BatcherFacts.accept_Ret in Hok. rewrite <- Hok.
  assert (forall f s f' s',
             flush_if_full bs f s = (Ret f', s') ->
             f' = [] /\ published s' = published s ++ [f]) as Hflush.
  { intros f s f' s'. unfold Batcher.flush_if_full.
    destruct (Z.geb_spec (Z.of_nat (length f)) bs) as [_|Hlt]; [|lia].
    unfold bind, modify, ret, Batcher.publish_batch.
    destruct (basic_publish _ _); [discriminate|]. now intros [= <- <-]. }
  destruct ok.
  - destruct (index (split " " line) 0) as [surt_url|] eqn:H0; [|discriminate].
    destruct (index (split " " line) 1) as [timestamp|] eqn:H1; [|discriminate].
    intros H. apply Hflush in H as [-> ->]. split; [reflexivity|]. simpl.
    unfold record_of.
    now rewrite (BatcherFacts.index_nth _ _ _ H0), (BatcherFacts.index_nth _ _ _ H1).
  - intros H. now apply Hflush in H as [-> ->].
Qed.

Lemma for_each_nonpositive {X : Type} (body : X -> list json -> M state (list json))
    (ext : X -> list (list json)) :
  (forall x st f' st',
      body x [] st = (Ret f', st') -> f' = [] /\ published st' = published st ++ ext x) ->
  forall xs st f' st',
    for_each body xs [] st = (Ret f', st') ->
    f' = [] /\ published st' = published st ++ flat_map ext xs.
Proof.
  intros Hb. induction xs as [|x xs IH]; intros st f' st'; simpl.
  - intros [= <- <-]. now rewrite app_nil_r.
  - unfold bind. destruct (body x [] st) as [[f1|e] st1] eqn:H1; [|discriminate].
    apply Hb in H1 as [-> Hp1]. intros H2. apply IH in H2 as [-> Hp2].
    split; [reflexivity|]. now rewrite Hp2, Hp1, app_assoc.
Qed.

(** With a batch size of zero or less, a run that returns has published one
    batch for each non-empty line, in order: the record of the line when it
    is accepted, and an empty batch when it is not. *)
Theorem nonpositive_batch_size lines bs st st' :
  (bs <= 0)%Z ->
  process_index lines bs st = (Ret tt, st') ->
  published st' = published st ++ flat_map chunk_batches lines.
Proof.
  intros Hbs. unfold Batcher.process_index. unfold bind at 1.
  destruct (for_each _ lines [] st) as [[found|e] st1] eqn:H1; [|discriminate].
  apply (for_each_nonpositive (process_chunk bs) chunk_batches) in H1 as [-> Hp].
  - unfold Batcher.final_flush, bind, ret. simpl. now intros [= <-].
  - intros x s f' s'. unfold Batcher.process_chunk, LineDefs.chunk_batches, bind, lift.
    destruct (fetch x) as [data|]; [|discriminate].
    apply for_each_nonpositive. intros l s0 f0 s0'. now apply process_line_nonpositive.
Qed.

(** Every record of every published batch, however the run ends, is the
    dict of lines 70-72 around a metadata mapping that passes the filter: the
    worker finds ["surt_url"], ["timestamp"] and ["metadata"] in it, and
    status ["200"] in the metadata. *)
Theorem published_records_are_readable lines bs st :
  exists new,
    published (snd (process_index lines bs st)) = published st ++ new
    /\ forall batch r,
         In batch new -> In r batch ->
         exists surt_url timestamp metadata,
           r = record surt_url timestamp metadata
           /\ qualifies metadata = true
           /\ getitem r "surt_url" = Ret (JStr surt_url)
           /\ getitem r "timestamp" = Ret (JStr timestamp)
           /\ getitem r "metadata" = Ret metadata
           /\ getitem metadata "status" = Ret (JStr "200").
Proof.
  destruct (BatcherFacts.process_index_sound json_loads int_of_str download_and_unzip
              decode_utf8 basic_publish lines bs st) as (new & Hp & Hsound).
  exists new. split; [exact Hp|]. intros batch r Hb Hr.
  assert (In r (concat new)) as H by (apply in_concat; eauto).
  apply Hsound, in_flat_map in H as (c & _ & H).
  unfold Batcher.accepted_chunk in H.
  destruct (fetch c) as [data|]; [|contradiction].
  apply in_flat_map in H as (line & _ & H).
  apply (BatcherFacts.in_accepted_line json_loads int_of_str download_and_unzip) in H
    as (_ & m & _ & Hq & ->).
  exists (nth 0 (split " " line) ""), (nth 1 (split " " line) ""), m.
  split; [reflexivity|]. split; [exact Hq|].
  split; [reflexivity|]. split; [reflexivity|]. split; [reflexivity|].
  unfold qualifies in Hq. destruct m as [ | | | | | |fields]; try discriminate.
  unfold getitem. destruct (assoc "status" fields) as [status|]; [|discriminate].
  destruct (assoc "languages" fields); [|discriminate].
  apply andb_true_iff in Hq as [Hq _].
  destruct status; try discriminate. unfold eq_str in Hq.
  apply String.eqb_eq in Hq. now subst.
Qed.

End Run.
End LineFacts.

(** ** The consumer *)

Module ConsumerFacts.
Import Worker Consumer Effects EffectsFacts.

Section Collaborators.

Variable Store : Type.
Variable store_save : json -> M Store unit.
Variable json_loads : string -> outcome json.
Variable int_of : json -> outcome Z.
Variable download_and_unzip : json -> Z -> Z -> outcome bytes.
Variable WARCIterator : bytes -> list warc_record * option exn.
Variable extract : bytes -> outcome (option string).
Variable encode : string -> outcome (list Z).

Local Abbreviation state := (Worker.state Store).
Local Abbreviation try_item :=
  (Worker.try_item Store store_save int_of download_and_unzip WARCIterator extract encode).
Local Abbreviation process_item :=
  (Worker.process_item Store store_save int_of download_and_unzip WARCIterator extract encode).
Local Abbreviation process_record := (Worker.process_record Store store_save extract encode).
Local Abbreviation process_batch :=
  (Worker.process_batch Store store_save json_loads int_of download_and_unzip WARCIterator
     extract encode).
Local Abbreviation after_items :=
  (Worker.after_items Store store_save int_of download_and_unzip WARCIterator extract encode).
Local Abbreviation run_saves := (Consumer.run_saves Store store_save).
Local Abbreviation saves_only := (Consumer.saves_only Store store_save).
Local Abbreviation document_of := (Consumer.document_of extract encode).
Local Abbreviation same_batches := (Consumer.same_batches Store).

Lemma run_saves_app docs docs' s :
  run_saves (docs ++ docs') s = run_saves docs' (run_saves docs s).
Proof. unfold Consumer.run_saves. apply fold_left_app. Qed.

Lemma saves_nothing {A : Type} P (m : M state A) :
  (forall st, store _ (snd (m st)) = store _ st
              /\ docs_processed _ (snd (m st)) = docs_processed _ st) ->
  saves_only P m.
Proof.
  intros H st. exists []. destruct (H st) as [-> ->]. simpl.
  repeat split; [constructor|lia..].
Qed.

Lemma saves_bind {A B : Type} P (m : M state A) (k : A -> M state B) :
  saves_only P m -> (forall a, saves_only P (k a)) -> saves_only P (bind m k).
Proof.
  intros Hm Hk st. unfold bind. destruct (Hm st) as (d1 & HP1 & Hs1 & Hc1).
  destruct (m st) as [[a|e] st1]; simpl in *; [|now exists d1].
  destruct (Hk a st1) as (d2 & HP2 & Hs2 & Hc2).
  exists (d1 ++ d2). rewrite run_saves_app, length_app, <- Hs1.
  repeat split; [now apply Forall_app|exact Hs2|lia..].
Qed.

Lemma saves_lift_bind {A B : Type} P (o : outcome A) (k : A -> M state B) :
  (forall a, o = Ret a -> saves_only P (k a)) -> saves_only P (bind (lift o) k).
Proof.
  intros Hk st. unfold bind, lift. destruct o as [a|e].
  - now apply Hk.
  - exists []. simpl. repeat split; [constructor|lia..].
Qed.

Lemma saves_for_each {X : Type} P (body : X -> unit -> M state unit) xs :
  (forall x u, In x xs -> saves_only P (body x u)) ->
  saves_only P (for_each body xs tt).
Proof.
  induction xs as [|x xs IH]; intros Hb; simpl.
  - now apply saves_nothing.
  - apply saves_bind; [apply Hb; now left|]. intros [].
    apply IH. intros y u Hy. apply Hb. now right.
Qed.

Lemma saves_impl {A : Type} (P Q : json -> Prop) (m : M state A) :
  (forall doc, P doc -> Q doc) -> saves_only P m -> saves_only Q m.
Proof.
  intros HPQ Hm st. destruct (Hm st) as (docs & HP & Hs).
  exists docs. split; [|exact Hs]. eapply Forall_impl; [exact HP|exact HPQ].
Qed.

Lemma saves_process_record item record :
  saves_only (document_of item) (process_record item record).
Proof.
  unfold Worker.process_record. destruct (String.eqb _ _); [|now apply saves_nothing].
  intros st. unfold bind, lift, modify.
  destruct (extract (content record)) as [text|e] eqn:Hx;
    [|exists []; simpl; repeat split; [constructor|lia..]].
  destruct (_is_valid_doc text) eqn:Hv; simpl;
    [|exists []; simpl; repeat split; [constructor|lia..]].
  destruct text as [t|]; [|discriminate]. simpl.
  destruct (encode t) as [tokens|e] eqn:He;
    [|exists []; simpl; repeat split; [constructor|lia..]].
  destruct (getitem item "surt_url") as [url|e] eqn:H1;
    [|exists []; simpl; repeat split; [constructor|lia..]].
  destruct (getitem item "timestamp") as [timestamp|e] eqn:H2;
    [|exists []; simpl; repeat split; [constructor|lia..]].
  destruct (getitem item "metadata") as [metadata|e] eqn:H3;
    [|exists []; simpl; repeat split; [constructor|lia..]].
  set (doc := JObj _).
  exists [doc]. split.
  - constructor; [|constructor]. exists url, timestamp, metadata, (content record), t, tokens.
    repeat split; try assumption.
    + apply andb_true_iff in Hv as [Hv _]. unfold MIN_DOC_LENGTH in *. lia.
    + apply andb_true_iff in Hv as [_ Hv]. unfold MAX_DOC_LENGTH in *. lia.
  - unfold Worker.save. destruct (store_save doc (store _ st)) as [[[]|e] s'] eqn:Hsave;
      simpl; unfold Consumer.run_saves; simpl; rewrite Hsave; simpl; split; [reflexivity|lia| reflexivity|lia].
Qed.

Lemma saves_try_item item : saves_only (document_of item) (try_item item).
Proof.
  unfold Worker.try_item.
  apply saves_bind; [now apply saves_nothing|]. intros data.
  apply saves_bind; [now apply saves_nothing|]. intros _.
  unfold Worker.process_records.
  apply saves_bind.
  - apply saves_for_each. intros x u _. apply saves_process_record.
  - intros _. apply saves_nothing. now destruct (snd _).
Qed.

Lemma saves_process_item item : saves_only (document_of item) (process_item item).
Proof.
  intros st. destruct (saves_try_item item st) as (docs & H).
  exists docs. now rewrite WorkerFacts.process_item_Ret.
Qed.

(** The worker changes the store in one way only: by saving, for an item of
    the batch, a document built from that item whose text has a length
    within the band.  A text outside the band, a record that is not a
    response, an item that raises before its save, leave the store as it
    is; and [docs_processed] never counts more than what was saved. *)
Theorem only_valid_documents_are_saved delivery_tag body st :
  exists docs,
    Forall (fun doc =>
              exists batch items item,
                json_loads body = Ret batch /\ iter batch = Ret items
                /\ In item items /\ document_of item doc) docs
    /\ store _ (snd (process_batch delivery_tag body st)) = run_saves docs (store _ st)
    /\ docs_processed _ st <= docs_processed _ (snd (process_batch delivery_tag body st))
       <= docs_processed _ st + length docs.
Proof.
  revert st. unfold Worker.process_batch.
  change (saves_only
            (fun doc => exists batch items item,
                 json_loads body = Ret batch /\ iter batch = Ret items
                 /\ In item items /\ document_of item doc)
            (bind (lift (json_loads body)) (fun batch =>
             bind (lift (len batch)) (fun _ =>
             bind (lift (len batch)) (fun received =>
             bind (modify (inc_docs_received _ received)) (fun _ =>
             bind (lift (iter batch)) (fun items =>
             bind (for_each (fun item (_ : unit) => process_item item) items tt) (fun _ =>
             bind (modify (inc_batch_counter _)) (fun _ =>
             modify (basic_ack _ delivery_tag)))))))))).
  apply saves_lift_bind. intros batch Hb.
  apply saves_bind; [now apply saves_nothing|]. intros _.
  apply saves_bind; [now apply saves_nothing|]. intros received.
  apply saves_bind; [now apply saves_nothing|]. intros _.
  apply saves_lift_bind. intros items Hi.
  apply saves_bind.
  - apply saves_for_each. intros item u Hin.
    eapply saves_impl; [|apply saves_process_item].
    intros doc Hdoc. exists batch, items, item. auto.
  - intros _. apply saves_bind; [now apply saves_nothing|]. intros _.
    now apply saves_nothing.
Qed.

Lemma same_batches_refl (st : state) : same_batches st st.
Proof. now repeat split. Qed.

Lemma same_batches_trans (s1 s2 s3 : state) :
  same_batches s1 s2 -> same_batches s2 s3 -> same_batches s1 s3.
Proof. intros (? & ? & ?) (? & ? & ?). repeat split; congruence. Qed.

Lemma same_batches_save doc : steps same_batches (Worker.save Store store_save doc).
Proof.
  intros st. unfold Worker.save. destruct (store_save doc (store _ st)). now repeat split.
Qed.

Lemma same_batches_try_item item : steps same_batches (try_item item).
Proof.
  pose proof same_batches_refl as Hr. pose proof same_batches_trans as Ht.
  assert (forall A (o : outcome A), steps same_batches (lift o)) as Hlift
    by (intros; now apply steps_lift).
  unfold Worker.try_item.
  apply steps_bind; [exact Ht|apply Hlift|]. intros data.
  apply steps_bind; [exact Ht|apply steps_modify; intros s; now repeat split|]. intros _.
  unfold Worker.process_records.
  apply steps_bind;
    [exact Ht| |intros _; destruct (snd (WARCIterator data)); intros st; apply Hr].
  apply steps_for_each; [exact Hr|exact Ht|]. intros record _.
  unfold Worker.process_record. destruct (String.eqb _ _); [|now apply steps_ret].
  apply steps_bind; [exact Ht|apply Hlift|]. intros text.
  destruct (negb _); [apply steps_modify; intros s; now repeat split|].
  repeat (apply steps_bind; [exact Ht|apply Hlift|]; intros ?).
  apply steps_bind; [exact Ht|apply same_batches_save|]. intros _.
  apply steps_modify; intros s; now repeat split.
Qed.

Lemma same_batches_after_items items st : same_batches st (after_items items st).
Proof.
  revert st. induction items as [|item items IH]; intros st; [apply same_batches_refl|].
  unfold Worker.after_items in *. simpl.
  eapply same_batches_trans; [apply same_batches_try_item|apply IH].
Qed.

(** A body that decodes to a list ends in an acknowledgement. *)
Lemma process_batch_list delivery_tag body items st :
  json_loads body = Ret (JArr items) ->
  exists st',
    process_batch delivery_tag body st = (Ret tt, st')
    /\ acks _ st' = acks _ st ++ [delivery_tag]
    /\ batch_counter _ st' = S (batch_counter _ st).
Proof.
  intros Hbody. eexists. split.
  - unfold Worker.process_batch, bind, lift, modify. rewrite Hbody. simpl.
    now rewrite WorkerFacts.items_Ret.
  - simpl.
    destruct (same_batches_after_items items (inc_docs_received _ (length items) st))
      as (-> & -> & _). now split.
Qed.

Lemma fetch_not_dict item :
  is_dict item = false -> Worker.fetch int_of download_and_unzip item = Raise TypeError.
Proof. now destruct item. Qed.

Lemma after_items_not_dicts items st :
  Forall (fun item => is_dict item = false) items -> after_items items st = st.
Proof.
  induction 1 as [|item items Hitem _ IH]; [reflexivity|].
  unfold Worker.after_items in *. simpl.
  now rewrite (WorkerFacts.try_item_fetch_raises _ _ _ _ _ _ _ _ _ _ (fetch_not_dict item Hitem)).
Qed.

(** An item that is not a dict raises at its first subscript and is
    skipped, so a body whose items are all of that kind, such as a JSON
    object, which is iterated by its keys, or a JSON string, iterated by its
    characters, is acknowledged with nothing fetched or stored; a decoded
    body that cannot be iterated, such as a number, makes [process_batch]
    raise before it counts or acknowledges anything. *)
Theorem non_dict_items_are_dropped delivery_tag body batch st :
  json_loads body = Ret batch ->
  (forall items,
      iter batch = Ret items ->
      Forall (fun item => is_dict item = false) items ->
      process_batch delivery_tag body st
      = (Ret tt,
         basic_ack _ delivery_tag
           (inc_batch_counter _ (inc_docs_received _ (length items) st))))
  /\ (forall e, iter batch = Raise e -> process_batch delivery_tag body st = (Raise e, st)).
Proof.
  intros Hbody. split.
  - intros items Hiter Hitems.
    unfold Worker.process_batch, bind, lift, modify, len. rewrite Hbody, Hiter. simpl.
    rewrite WorkerFacts.items_Ret. simpl. now rewrite after_items_not_dicts.
  - intros e Hiter.
    unfold Worker.process_batch, bind, lift, len. now rewrite Hbody, Hiter.
Qed.

Section Startup.

Variable start_http_server : option exn.
Variable rabbitmq_channel : option exn.

Local Abbreviation start_consuming :=
  (Consumer.start_consuming Store store_save json_loads int_of download_and_unzip
     WARCIterator extract encode).
Local Abbreviation run :=
  (Consumer.run Store store_save json_loads int_of download_and_unzip WARCIterator
     extract encode start_http_server rabbitmq_channel).

Lemma start_consuming_lists deliveries st :
  Forall (fun delivery => exists items, json_loads (snd delivery) = Ret (JArr items))
         deliveries ->
  exists st',
    start_consuming deliveries st = (Ret tt, st')
    /\ acks _ st' = acks _ st ++ map fst deliveries
    /\ batch_counter _ st' = batch_counter _ st + length deliveries.
Proof.
  intros H. revert st. induction H as [|[tag body] deliveries [items Hitems] _ IH]; intros st.
  - exists st. simpl. rewrite app_nil_r. repeat split; lia.
  - destruct (process_batch_list tag body items st Hitems) as (st1 & Hrun & Ha & Hc).
    destruct (IH st1) as (st2 & Hrest & Ha2 & Hc2).
    exists st2. unfold Consumer.start_consuming in *. simpl. unfold bind at 1.
    rewrite Hrun, Hrest, Ha2, Hc2, Ha, Hc, <- app_assoc. repeat split. lia.
Qed.

(** When the worker starts and every delivered body decodes to a list,
    [run] acknowledges the deliveries one by one in the order of arrival and
    counts each; a body that [json.loads] refuses ends [run] with that
    exception, unacknowledged, and what was delivered after it is not
    looked at. *)
Theorem consumer_acknowledges_in_order deliveries st :
  start_http_server = None ->
  rabbitmq_channel = None ->
  Forall (fun delivery => exists items, json_loads (snd delivery) = Ret (JArr items))
         deliveries ->
  (fst (run deliveries st) = Ret tt
   /\ acks _ (snd (run deliveries st)) = acks _ st ++ map fst deliveries
   /\ batch_counter _ (snd (run deliveries st)) = batch_counter _ st + length deliveries)
  /\ (forall delivery_tag body later e,
         json_loads body = Raise e ->
         fst (run (deliveries ++ (delivery_tag, body) :: later) st) = Raise e
         /\ acks _ (snd (run (deliveries ++ (delivery_tag, body) :: later) st))
            = acks _ st ++ map fst deliveries
         /\ run (deliveries ++ (delivery_tag, body) :: later) st
            = run (deliveries ++ [(delivery_tag, body)]) st).
Proof.
  intros Hhttp Hchan Hall.
  destruct (start_consuming_lists deliveries st Hall) as (st1 & Hrun & Ha & Hc).
  assert (forall ds, run ds st = start_consuming ds st) as Hstart.
  { intros ds. unfold Consumer.run, bind, lift. now rewrite Hhttp, Hchan. }
  split.
  - rewrite Hstart, Hrun. auto.
  - intros tag body later e Hbad.
    assert (forall rest,
               start_consuming (deliveries ++ (tag, body) :: rest) st = (Raise e, st1))
      as Hstop.
    { intros rest. unfold Consumer.start_consuming in *.
      rewrite BatcherFacts.for_each_app, Hrun. simpl. unfold bind at 1.
      unfold Worker.process_batch, bind, lift. simpl. now rewrite Hbad. }
    rewrite !Hstart, !Hstop. auto.
Qed.

End Startup.

End Collaborators.
End ConsumerFacts.

(** ** The downloader *)

Module CommonCrawlFacts.
Import CommonCrawl Text TextFacts.

Lemma digits_of_nonnegative c z :
  (0 <= z)%Z -> occurs c (ObjectStore.str_of_int z) = true -> digit c = true.
Proof.
  unfold ObjectStore.str_of_int. destruct z as [|p|p]; [| |lia]; intros _.
  - change (NilZero.string_of_int (Z.to_int 0)) with "0". cbn [occurs].
    rewrite orb_false_r. intros H. apply Ascii.eqb_eq in H. now subst.
  - cbn [Z.to_int NilZero.string_of_int].
    pose proof (DecimalPos.Unsigned.to_uint_nonnil p) as Hn.
    destruct (Pos.to_uint p) eqn:E; try contradiction; rewrite <- E;
      unfold NilZero.string_of_uint; rewrite E; rewrite <- E; apply digits_of_uint.
Qed.

(** For offsets that are not negative, the [Range] header names the offset
    and the length without loss: two requests carry the same header only for
    the same range. *)
Theorem range_header_injective start length start' length' :
  (0 <= start)%Z -> (0 <= start')%Z ->
  range_header start length = range_header start' length' ->
  start = start' /\ length = length'.
Proof.
  intros Hs Hs' H. unfold range_header in H.
  apply ObjectStoreFacts.append_cancel_l in H.
  assert (forall z, (0 <= z)%Z -> occurs "-" (ObjectStore.str_of_int z) = false) as Hfree.
  { intros z Hz. destruct (occurs "-" (ObjectStore.str_of_int z)) eqn:E; [|reflexivity].
    apply digits_of_nonnegative in E; [discriminate|exact Hz]. }
  apply (cut_inj "-") in H as [H1 H2]; try (now apply Hfree).
  apply ObjectStoreFacts.str_of_int_inj in H1, H2. lia.
Qed.

Section Http.

Variable requests_get : string -> string -> outcome response.
Variable gzip_decompress : bytes -> outcome bytes.

Local Abbreviation download_and_unzip :=
  (CommonCrawl.download_and_unzip requests_get gzip_decompress).

Lemma error_status_raises base_url url start length r :
  requests_get (base_url ++ "/" ++ url)%string (range_header start length) = Ret r ->
  (400 <= status_code r < 600)%Z ->
  download_and_unzip base_url url start length = Raise HTTPError.
Proof.
  intros Hget Hstatus. unfold CommonCrawl.download_and_unzip, raise_for_status.
  rewrite Hget.
  destruct (Z.leb_spec 400 (status_code r)); [|lia].
  destruct (Z.ltb_spec (status_code r) 600); [|lia]. reflexivity.
Qed.

Lemma process_index_fetch_abort json_loads int_of_str download decode_utf8 basic_publish
    bs rows_before row rows_after found0 st0 st e :
  for_each (Batcher.process_chunk json_loads int_of_str download decode_utf8 basic_publish bs)
    rows_before [] st = (Ret found0, st0) ->
  Batcher.fetch int_of_str download decode_utf8 row = Raise e ->
  Batcher.process_index json_loads int_of_str download decode_utf8 basic_publish
    (rows_before ++ row :: rows_after) bs st = (Raise e, st0).
Proof.
  intros Hrows Hfetch. unfold Batcher.process_index. unfold bind at 1.
  rewrite BatcherFacts.for_each_app, Hrows. simpl. unfold bind at 1.
  unfold Batcher.process_chunk at 1. unfold bind at 1, lift. now rewrite Hfetch.
Qed.

(** A 4xx or 5xx answer to a range request is fatal to the batcher and
    harmless to the worker: in [process_index] it ends the run at that index
    row with [HTTPError], the pending batch unpublished; in the worker it
    ends the item only, which leaves no trace. *)
Theorem error_status_producer_and_consumer :
  (forall json_loads int_of_str decode_utf8 basic_publish crawl_version bs
          rows_before row rows_after found0 st0 st url f2 f3 start length r,
      for_each
        (Batcher.process_chunk json_loads int_of_str
           (index_downloader requests_get gzip_decompress crawl_version)
           decode_utf8 basic_publish bs)
        rows_before [] st = (Ret found0, st0) ->
      index row 1 = Ret url ->
      index row 2 = Ret f2 -> int_of_str f2 = Ret start ->
      index row 3 = Ret f3 -> int_of_str f3 = Ret length ->
      requests_get (BASE_URL ++ "/" ++ crawl_path crawl_version ++ "/" ++ url)%string
        (range_header start length) = Ret r ->
      (400 <= status_code r < 600)%Z ->
      Batcher.process_index json_loads int_of_str
        (index_downloader requests_get gzip_decompress crawl_version)
        decode_utf8 basic_publish (rows_before ++ row :: rows_after) bs st
      = (Raise HTTPError, st0))
  /\ (forall Store store_save int_of str_of WARCIterator extract encode
             item filename offset start length_field length r st,
         Worker.metadata_field item "filename" = Ret (JStr filename) ->
         Worker.metadata_field item "offset" = Ret offset -> int_of offset = Ret start ->
         Worker.metadata_field item "length" = Ret length_field ->
         int_of length_field = Ret length ->
         requests_get (BASE_URL ++ "/" ++ filename)%string (range_header start length)
         = Ret r ->
         (400 <= status_code r < 600)%Z ->
         Worker.process_item Store store_save int_of
           (archive_downloader requests_get gzip_decompress str_of)
           WARCIterator extract encode item st
         = (Ret tt, st)).
Proof.
  split.
  - intros json_loads int_of_str decode_utf8 basic_publish crawl_version bs rows_before row
      rows_after found0 st0 st url f2 f3 start length r Hrows H1 H2 Hs H3 Hl Hget Hstatus.
    apply process_index_fetch_abort with (found0 := found0); [exact Hrows|].
    unfold Batcher.fetch. rewrite H1, H2, Hs, H3, Hl.
    unfold index_downloader.
    rewrite (error_status_raises _ url start length r); [reflexivity| |exact Hstatus].
    rewrite <- Hget. f_equal.
  - intros Store store_save int_of str_of WARCIterator extract encode item filename offset
      start length_field length r st Hf Ho Hs Hlf Hl Hget Hstatus.
    rewrite WorkerFacts.process_item_Ret.
    erewrite WorkerFacts.try_item_fetch_raises; [reflexivity|].
    unfold Worker.fetch. rewrite Hf, Ho, Hs, Hlf, Hl.
    unfold archive_downloader. eapply error_status_raises; eauto.
Qed.

End Http.
End CommonCrawlFacts.

(** ** The outcomes of a publish *)

Module BrokerFacts.
Import RabbitMQ.

Section Broker.

Variable Body : Type.
Variable pika_basic_publish : nat -> Body -> option exn.
Variable rabbitmq_channel : nat -> option exn.

Local Abbreviation basic_publish :=
  (RabbitMQ.basic_publish Body pika_basic_publish rabbitmq_channel).

(** A round whose publish attempt fails ends in an exception and leaves
    the delivered bodies as they were. *)
Lemma loop_body_failure body attempt st e :
  pika_basic_publish (attempts st) body = Some e ->
  exists x st',
    loop_body Body pika_basic_publish rabbitmq_channel body attempt st = (Raised x, st')
    /\ delivered st' = delivered st.
Proof.
  intros Hp. unfold RabbitMQ.loop_body, RabbitMQ.try_publish. rewrite Hp.
  assert (forall s, exists x s',
             match retry Body rabbitmq_channel attempt s with
             | (Next _, s1) =>
                 (Raised (RuntimeError "Failed to publish after 3 retries"), s1)
             | other => other
             end = (Raised x, s') /\ delivered s' = delivered s) as Hretry.
  { intros s. unfold retry, bind, time_sleep, modify, _connect. simpl.
    destruct (rabbitmq_channel (connects s)); simpl; eauto. }
  destruct (unrecoverable e); [eauto|].
  set (st1 := mkState (delivered st) (S (attempts st)) (sleeps st) (connects st)).
  destruct (Hretry st1) as (x & s' & Hx & Hd).
  exists x, s'. split; [|exact Hd]. now destruct (recoverable e).
Qed.

(** [basic_publish] returns normally exactly when the pika channel takes
    the body at the first attempt, and then the broker has the body once,
    with no sleep and no reconnection; in every other case it raises and the
    broker has not received the body. *)
Theorem basic_publish_delivers_once_or_raises body st :
  exists o st',
    basic_publish body st = Some (o, st')
    /\ (o = Ret tt <-> pika_basic_publish (attempts st) body = None)
    /\ (o = Ret tt ->
        delivered st' = delivered st ++ [body]
        /\ sleeps st' = sleeps st /\ connects st' = connects st)
    /\ (o <> Ret tt -> delivered st' = delivered st).
Proof.
  unfold RabbitMQ.basic_publish. simpl.
  destruct (pika_basic_publish (attempts st) body) as [e|] eqn:Hp.
  - destruct (loop_body_failure body 0 st e Hp) as (x & st' & -> & Hd).
    exists (Raise x), st'. split; [reflexivity|].
    repeat split; try discriminate; auto.
  - unfold RabbitMQ.loop_body, RabbitMQ.try_publish. rewrite Hp.
    eexists _, _. split; [reflexivity|]. simpl. repeat split; auto; congruence.
Qed.

(** When the reconnection that follows a failed attempt fails too, the
    caller gets the exception of the reconnection, after one sleep. *)
Theorem failed_reconnection_propagates body st e e' :
  pika_basic_publish (attempts st) body = Some e ->
  unrecoverable e = false ->
  rabbitmq_channel (connects st) = Some e' ->
  basic_publish body st
  = Some (Raise e',
          mkState (delivered st) (S (attempts st)) (sleeps st ++ [RETRY_DELAY])
                  (S (connects st))).
Proof.
  intros H Hu Hc. unfold RabbitMQ.basic_publish. simpl.
  unfold RabbitMQ.loop_body, RabbitMQ.try_publish. rewrite H, Hu.
  assert (retry Body rabbitmq_channel 0
            (mkState (delivered st) (S (attempts st)) (sleeps st) (connects st))
          = (Raised e', mkState (delivered st) (S (attempts st)) (sleeps st ++ [RETRY_DELAY])
                                (S (connects st)))) as Hr.
  { unfold retry, bind, time_sleep, modify, _connect. simpl. now rewrite Hc. }
  destruct (recoverable e); now rewrite Hr.
Qed.

End Broker.
End BrokerFacts.

(** ** Further worked examples *)

Module MoreExamples.
Import Fixture Fixture2.

Local Open Scope Z_scope.

Lemma metadata_text_drops_spaces_witness :
  Batcher.metadata_text ("com,example)/a" ++ " " ++ "20240722120756" ++ " " ++ spaced_text)
  = Text.remove " " spaced_text
  /\ (forall metadata,
         Batcher.record_of
           ("com,example)/a" ++ " " ++ "20240722120756" ++ " " ++ spaced_text) metadata
         = Batcher.record "com,example)/a" "20240722120756" metadata)
  /\ (forall line, Text.occurs " " (Batcher.metadata_text line) = false)
  /\ Batcher.metadata_text "com,example)/a" = ""%string
  /\ Batcher.metadata_text ("com,example)/a" ++ " " ++ "20240722120756") = ""%string.
Proof.
  apply (LineFacts.metadata_text_drops_spaces "com,example)/a" "20240722120756" spaced_text);
    reflexivity.
Defined.

(** The two words of the title reach [json.loads] as one. *)
Example spaced_text_loses_its_space :
  Batcher.metadata_text ("com,example)/a 20240722120756 " ++ spaced_text)
  = ("{" ++ quoted "title" ++ ":" ++ quoted "twowords" ++ "}")%string.
Proof. vm_compute. reflexivity. Qed.

Lemma short_line_aborts_witness :
  Batcher.process_line json_loads accept_all Batcher.BATCH_SIZE
    "com,example)/a 20240722120756" [] Batcher.init
  = (Raise JSONDecodeError, Batcher.inc_docs_seen Batcher.init).
Proof.
  apply (LineFacts.short_line_aborts json_loads accept_all Batcher.BATCH_SIZE
           "com,example)/a" "20240722120756" "com,example)/a 20240722120756" []
           Batcher.init JSONDecodeError).
  - reflexivity.
  - reflexivity.
  - right. reflexivity.
  - discriminate.
  - reflexivity.
Defined.

Lemma short_row_aborts_witness :
  exists e,
    forall download decode loads publish bs found st,
      Batcher.process_chunk loads int_of_str download decode publish bs short_row found st
      = (Raise e, st).
Proof.
  apply (LineFacts.short_row_aborts int_of_str short_row). vm_compute. lia.
Defined.

Lemma nonpositive_batch_size_witness :
  [[record_a]; []; [record_b]]
  = [] ++ flat_map (LineDefs.chunk_batches json_loads int_of_str (serve three_lines)
                      decode_utf8) [row].
Proof.
  apply (LineFacts.nonpositive_batch_size json_loads int_of_str (serve three_lines)
           decode_utf8 accept_all [row] 0 Batcher.init
           (Batcher.mkState [[record_a]; []; [record_b]] 3 3 2 2)).
  - lia.
  - vm_compute. reflexivity.
Defined.

Lemma consumer_acknowledges_in_order_witness :
  (fst (run_consumer deliveries) = Ret tt
   /\ Worker.acks _ (snd (run_consumer deliveries)) = [] ++ [1; 2]
   /\ Worker.batch_counter _ (snd (run_consumer deliveries)) = (0 + 2)%nat)
  /\ (forall delivery_tag body later e,
         loads_body body = Raise e ->
         fst (run_consumer (deliveries ++ (delivery_tag, body) :: later)) = Raise e
         /\ Worker.acks _ (snd (run_consumer (deliveries ++ (delivery_tag, body) :: later)))
            = [] ++ [1; 2]
         /\ run_consumer (deliveries ++ (delivery_tag, body) :: later)
            = run_consumer (deliveries ++ [(delivery_tag, body)])).
Proof.
  apply (ConsumerFacts.consumer_acknowledges_in_order _ store_save loads_body int_of
           download warc_iterator extract encode None None deliveries worker_init).
  - reflexivity.
  - reflexivity.
  - repeat constructor.
    + exists [item_1; item_2; item_3]. vm_compute. reflexivity.
    + exists [item_1; item_garbled; item_3]. vm_compute. reflexivity.
Defined.

Lemma non_dict_items_are_dropped_witness :
  (forall items,
      iter dict = Ret items ->
      Forall (fun item => Consumer.is_dict item = false) items ->
      Worker.process_batch _ store_save loads_any int_of download warc_iterator extract
        encode 7 dict_body worker_init
      = (Ret tt,
         Worker.basic_ack _ 7
           (Worker.inc_batch_counter _
              (Worker.inc_docs_received _ (length items) worker_init))))
  /\ (forall e,
         iter dict = Raise e ->
         Worker.process_batch _ store_save loads_any int_of download warc_iterator extract
           encode 7 dict_body worker_init
         = (Raise e, worker_init)).
Proof.
  apply (ConsumerFacts.non_dict_items_are_dropped _ store_save loads_any int_of download
           warc_iterator extract encode 7 dict_body dict worker_init).
  vm_compute. reflexivity.
Defined.

(** The object is acknowledged: one key counted as one document received,
    nothing stored. *)
Example dict_body_is_acknowledged :
  Worker.process_batch _ store_save loads_any int_of download warc_iterator extract
    encode 7 dict_body worker_init
  = (Ret tt, Worker.mkState _ empty_store [7] 1 1 0 0 0).
Proof. vm_compute. reflexivity. Qed.

Lemma failed_reconnection_propagates_witness :
  RabbitMQ.basic_publish string always_closed never_reconnects payload (RabbitMQ.init string)
  = Some (Raise (Pika AMQPConnectionError), RabbitMQ.mkState [] 1 [5] 1).
Proof.
  apply (BrokerFacts.failed_reconnection_propagates string always_closed never_reconnects
           payload (RabbitMQ.init string) (Pika ConnectionClosed)
           (Pika AMQPConnectionError)); reflexivity.
Defined.

Lemma range_header_injective_witness :
  188224 = 188224 /\ 178351 = (366574 - 188224 + 1).
Proof.
  apply (CommonCrawlFacts.range_header_injective 188224 178351 188224 (366574 - 188224 + 1)).
  - lia.
  - lia.
  - reflexivity.
Defined.

Lemma key_injective_witness : noon = noon_again.
Proof. apply (TextFacts.key_injective noon noon_again). reflexivity. Defined.

(** The second row of the index of [test_can_read_index] asks for the
    178351 bytes from 188224 on. *)
Example range_of_second_row :
  CommonCrawl.range_header 188224 178351 = "bytes=188224-366574"%string.
Proof. vm_compute. reflexivity. Qed.

Lemma error_status_witness :
  Batcher.process_index json_loads int_of_str
    (CommonCrawl.index_downloader not_found gunzip "CC-MAIN-2024-30")
    decode_utf8 accept_all ([] ++ row :: []) Batcher.BATCH_SIZE Batcher.init
  = (Raise HTTPError, Batcher.init)
  /\ Worker.process_item _ store_save int_of
       (CommonCrawl.archive_downloader not_found gunzip str_of)
       warc_iterator extract encode item_1 worker_init
     = (Ret tt, worker_init).
Proof.
  split.
  - apply (proj1 (CommonCrawlFacts.error_status_producer_and_consumer not_found gunzip)
             json_loads int_of_str decode_utf8 accept_all "CC-MAIN-2024-30"
             Batcher.BATCH_SIZE [] row [] [] Batcher.init Batcher.init
             "cdx-00000.gz" "0" "188224" 0 188224 (CommonCrawl.mkResponse 404 []));
      try reflexivity. simpl. lia.
  - apply (proj2 (CommonCrawlFacts.error_status_producer_and_consumer not_found gunzip)
             _ store_save int_of str_of warc_iterator extract encode item_1
             "crawl-data/a.warc.gz" (JStr "1024") 1024 (JStr "2048") 2048
             (CommonCrawl.mkResponse 404 []));
      try reflexivity. simpl. lia.
Defined.

End MoreExamples.
